(** * Simulador Economia Circular Verde: a shallow embedding of [app.py]

    The embedding covers the formula-evaluation core of [app.py]:
    [_unwrap_excel_value], [safe_eval], the [IF_SAFE] patch,
    [coerce_value], [is_probably_input_cell], [discover_inputs] and
    [build_model_from_workbook].

    Python values are the inductive [pyval]; a Python exception of class
    [Exception] is an [exn] carrying [str(e)]; fallible code returns
    [exn + A] ([inl] = raised). A Python [float] is an IEEE binary64
    number, Rocq's primitive [float]. A Python [str] is the Rocq [string]
    of its UTF-8 encoding, so that a character outside ASCII spans two to
    four bytes; string functions that look at characters first decode the
    bytes into code points ([utf8_chars]). *)

From Stdlib Require Import ZArith Floats Ascii String.
From stdpp Require Import base gmap list strings sorting pretty.

Open Scope string_scope.
Open Scope nat_scope.
Set Warnings "-register-all,-abstract-large-number".

(* ------------------------------------------------------------------ *)
(** ** Python values and exceptions *)

(** An exception of class [Exception]; [exn_msg] is [str(e)]. *)
Record exn := Exn { exn_msg : string }.

(** Python values reaching the evaluator layer.
    - [PExpr f]: an xlcalculator [func_xltypes.Expr]; calling it runs [f].
    - [PArray rows]: a [func_xltypes.Array] (a pandas frame), row by row.
    - [PObj value truth]: any other object; [value] is its [.value]
      attribute ([None]: no such attribute, [Some None]: reading it raises,
      [Some (Some w)]: it holds [w]) and [truth] is what [bool(obj)] does.
    - [PError value truth]: an xlcalculator [ExcelError] (such as
      [DivZeroExcelError()]), with its [.value] and truth value as for
      [PObj]. *)
Inductive pyval : Type :=
  | PNone
  | PInt (z : Z)
  | PFloat (f : float)
  | PStr (s : string)
  | PBool (b : bool)
  | PExpr (f : unit -> exn + pyval)
  | PArray (rows : list (list pyval))
  | PObj (value : option (option pyval)) (truth : exn + bool)
  | PError (value : option (option pyval)) (truth : exn + bool).

(** [isinstance(v, (int, float, str, bool))] *)
Definition is_primitive (v : pyval) : bool :=
  match v with
  | PInt _ | PFloat _ | PStr _ | PBool _ => true
  | _ => false
  end.

(** [callable(v)] *)
Definition is_callable (v : pyval) : bool :=
  match v with PExpr _ => true | _ => false end.

(* ------------------------------------------------------------------ *)
(** ** [_unwrap_excel_value]

<<
def _unwrap_excel_value(val):
    if isinstance(val, func_xltypes.Expr):
        val = val()
    if isinstance(val, func_xltypes.Array):
        flat = list(val.values.flat)
        return _unwrap_excel_value(flat[0]) if flat else None
    if hasattr(val, "value") and not isinstance(val, (int, float, str, bool)):
        try:
            return val.value
        except Exception:
            pass
    return val
>>
    [val.values.flat] is the row-major flattening, so [flat[0]] is the first
    element of the first non-empty row. The step after the optional call is
    written twice, once for the called [Expr] and once for the value as
    given, so that the recursion is structural. *)
Fixpoint _unwrap_excel_value (v : pyval) : exn + pyval :=
  match v with
  | PExpr f =>
      match f tt with
      | inl e => inl e
      | inr w =>
          match w with
          | PArray rows =>
              (fix first_flat (rs : list (list pyval)) : exn + pyval :=
                 match rs with
                 | [] => inr PNone
                 | [] :: rs' => first_flat rs'
                 | (x :: _) :: _ => _unwrap_excel_value x
                 end) rows
          | PObj (Some (Some x)) _ | PError (Some (Some x)) _ => inr x
          | _ => inr w
          end
      end
  | PArray rows =>
      (fix first_flat (rs : list (list pyval)) : exn + pyval :=
         match rs with
         | [] => inr PNone
         | [] :: rs' => first_flat rs'
         | (x :: _) :: _ => _unwrap_excel_value x
         end) rows
  | PObj (Some (Some x)) _ | PError (Some (Some x)) _ => inr x
  | _ => inr v
  end.

(* ------------------------------------------------------------------ *)
(** ** [safe_eval] and the KPI loop

<<
def safe_eval(evaluator: Evaluator, addr: str):
    try:
        return _unwrap_excel_value(evaluator.evaluate(addr))
    except Exception as e:
        return f"Erro: {e}"
>>
    The xlcalculator evaluator is an external, stateful collaborator: it is
    a section variable [evaluate] that threads the evaluator state [Ev]
    (its caches) and may raise. *)
Section Evaluation.
Variable Ev : Type.
Variable evaluate : Ev -> string -> (exn + pyval) * Ev.

Definition safe_eval (ev : Ev) (addr : string) : pyval * Ev :=
  let '(r, ev') := evaluate ev addr in
  match r with
  | inl e => (PStr ("Erro: " ++ exn_msg e), ev')
  | inr raw =>
      match _unwrap_excel_value raw with
      | inl e => (PStr ("Erro: " ++ exn_msg e), ev')
      | inr v => (v, ev')
      end
  end.

(** The KPI loop of the page:
<<
    for name, addr in OUTPUT_CELLS.items():
        val = safe_eval(engine, addr)
        ... st.metric(name, str(val))
>>
    returns the reported [(name, val)] pairs in order. *)
Fixpoint kpi_batch (ev : Ev) (outputs : list (string * string))
    : list (string * pyval) * Ev :=
  match outputs with
  | [] => ([], ev)
  | (name, addr) :: rest =>
      let '(v, ev1) := safe_eval ev addr in
      let '(vs, ev2) := kpi_batch ev1 rest in
      ((name, v) :: vs, ev2)
  end.
End Evaluation.

Arguments safe_eval {Ev} evaluate ev addr.
Arguments kpi_batch {Ev} evaluate ev outputs.

(* ------------------------------------------------------------------ *)
(** ** [IF_SAFE]

<<
@xl.register()
@xl.validate_args
def IF_SAFE(logical_test, value_if_true=True, value_if_false=False):
    cond = _unwrap_excel_value(logical_test)
    true_fn = value_if_true if callable(value_if_true) else lambda: value_if_true
    false_fn = value_if_false if callable(value_if_false) else lambda: value_if_false
    chosen = true_fn if bool(cond) else false_fn
    return _unwrap_excel_value(chosen())
>>
    [xl.register()] adds the function to xlcalculator's library and
    returns it as it is. [xl.validate_args] wraps it: the wrapper returns the
    first argument, in order, that is an [ExcelError] instance, without
    calling the function; otherwise it calls the function with the arguments
    unchanged (the parameters carry no annotation to convert to). Invoking a branch is an effect: it is recorded in a log of [branch]
    events, so that which branches ran is observable. *)

(** [bool(v)]. An [Expr] defines neither [__bool__] nor [__len__]; an
    [Array] is a pandas frame, whose truth value raises. *)
Definition py_bool (v : pyval) : exn + bool :=
  match v with
  | PNone => inr false
  | PInt z => inr (negb (Z.eqb z 0))
  | PFloat f => inr (negb (PrimFloat.eqb f 0%float))
  | PStr s => inr (negb (String.eqb s EmptyString))
  | PBool b => inr b
  | PExpr _ => inr true
  | PArray _ => inl (Exn ("The truth value of a DataFrame is ambiguous. "
                          ++ "Use a.empty, a.bool(), a.item(), a.any() or a.all()."))
  | PObj _ t | PError _ t => t
  end.

Inductive branch := TrueBranch | FalseBranch.

(** [true_fn()] / [false_fn()]: a callable branch is invoked (and logged);
    a plain value is returned by the wrapping lambda. *)
Definition invoke_branch (side : branch) (b : pyval)
    : list branch * (exn + pyval) :=
  match b with
  | PExpr f => ([side], f tt)
  | _ => ([], inr b)
  end.

(** The body of [IF_SAFE], as written under its decorators. *)
Definition IF_SAFE_body (logical_test value_if_true value_if_false : pyval)
    : list branch * (exn + pyval) :=
  match _unwrap_excel_value logical_test with
  | inl e => ([], inl e)
  | inr cond =>
      match py_bool cond with
      | inl e => ([], inl e)
      | inr c =>
          let '(log, r) :=
            if c then invoke_branch TrueBranch value_if_true
            else invoke_branch FalseBranch value_if_false in
          match r with
          | inl e => (log, inl e)
          | inr x => (log, _unwrap_excel_value x)
          end
      end
  end.

(** [isinstance(v, xlerrors.ExcelError)] *)
Definition is_excel_error (v : pyval) : bool :=
  match v with PError _ _ => true | _ => false end.

(** The first [ExcelError] among the arguments, as [validate_args] finds it. *)
Definition first_excel_error (args : list pyval) : option pyval :=
  List.find is_excel_error args.

(** [xl.validate_args] around a function of three arguments. *)
Definition validate_args (func : pyval -> pyval -> pyval -> list branch * (exn + pyval))
    (a1 a2 a3 : pyval) : list branch * (exn + pyval) :=
  match first_excel_error [a1; a2; a3] with
  | Some err => ([], inr err)
  | None => func a1 a2 a3
  end.

(** [IF_SAFE] as registered: the decorated function. *)
Definition IF_SAFE (logical_test value_if_true value_if_false : pyval)
    : list branch * (exn + pyval) :=
  validate_args IF_SAFE_body logical_test value_if_true value_if_false.

(** The branch [IF_SAFE] selects: [bool(_unwrap_excel_value(logical_test))]. *)
Definition selected_branch (logical_test : pyval) : exn + bool :=
  match _unwrap_excel_value logical_test with
  | inl e => inl e
  | inr cond => py_bool cond
  end.

(** The call-and-unwrap of one branch, [_unwrap_excel_value(fn())]. *)
Definition branch_result (side : branch) (b : pyval) : exn + pyval :=
  match (invoke_branch side b).2 with
  | inl e => inl e
  | inr x => _unwrap_excel_value x
  end.

(* ------------------------------------------------------------------ *)
(** ** Characters of a [str]

    A [str] is held as its UTF-8 bytes. [utf8_chars] cuts the bytes into
    the encodings of its characters: a lead byte announces how many
    continuation bytes [10xxxxxx] follow it ([110xxxxx]: one, [1110xxxx]:
    two, [11110xxx]: three, an ASCII byte: none). *)

(** A continuation byte [10xxxxxx]. *)
Definition is_cont (c : ascii) : bool :=
  let n := nat_of_ascii c in (128 <=? n) && (n <? 192).

(** The number of continuation bytes announced by a lead byte. *)
Definition utf8_extra (c : ascii) : nat :=
  let n := nat_of_ascii c in
  if n <? 192 then 0 else if n <? 224 then 1 else if n <? 240 then 2 else 3.

Fixpoint take_cont (k : nat) (s : string) : string * string :=
  match k, s with
  | S k', String c s' =>
      if is_cont c then let '(a, b) := take_cont k' s' in (String c a, b)
      else (EmptyString, s)
  | _, _ => (EmptyString, s)
  end.

Fixpoint utf8_chars_go (fuel : nat) (s : string) : list string :=
  match fuel, s with
  | S fuel', String c s' =>
      let '(tl, rest) := take_cont (utf8_extra c) s' in
      String c tl :: utf8_chars_go fuel' rest
  | _, _ => []
  end.

(** The characters of a [str], each as its own encoding. *)
Definition utf8_chars (s : string) : list string := utf8_chars_go (String.length s) s.

(** The code point [ord(ch)] of the encoding of one character. *)
Definition code_point (ch : string) : Z :=
  match ch with
  | EmptyString => 0
  | String c rest =>
      let n := nat_of_ascii c in
      let lead := if n <? 128 then n else if n <? 224 then n - 192
                  else if n <? 240 then n - 224 else n - 240 in
      fold_left (fun acc b => (acc * 64 + Z.of_nat (nat_of_ascii b - 128))%Z)
        (list_ascii_of_string rest) (Z.of_nat lead)
  end.

(** [ch.isspace()] (CPython's [_PyUnicode_IsWhitespace]): the characters
    of bidirectional type WS, B or S or of general category Zs. *)
Definition py_isspace (cp : Z) : bool :=
  (((9 <=? cp) && (cp <=? 13)) || ((28 <=? cp) && (cp <=? 32)) ||
   (cp =? 133) || (cp =? 160) || (cp =? 5760) ||
   ((8192 <=? cp) && (cp <=? 8202)) || (cp =? 8232) || (cp =? 8233) ||
   (cp =? 8239) || (cp =? 8287) || (cp =? 12288))%Z.

Fixpoint drop_spaces (l : list string) : list string :=
  match l with
  | [] => []
  | ch :: l' => if py_isspace (code_point ch) then drop_spaces l' else l
  end.

(** [s.strip()] *)
Definition py_strip (s : string) : string :=
  String.concat EmptyString (rev (drop_spaces (rev (drop_spaces (utf8_chars s))))).

(** The bytes of [s] with the ASCII capitals lowered; the other bytes, and
    so every multi-byte character, are kept. It decides the test
    [s.lower() == w] for [w] = ["true"] or ["false"]: Unicode's lowercase
    mapping sends every character to a nonempty string, and the only
    characters outside ASCII whose lowercase contains an ASCII letter are
    KELVIN SIGN (to ["k"]) and LATIN CAPITAL LETTER I WITH DOT ABOVE (to
    ["i"] and a combining dot), neither of which can occur in a string that
    lowers to [w]. So [s.lower() == w] exactly when [s] spells [w] in
    ASCII letters of either case, that is when [lower_ascii s = w]. *)
Fixpoint lower_ascii (s : string) : string :=
  match s with
  | EmptyString => EmptyString
  | String c s' =>
      let n := nat_of_ascii c in
      let c' := if (65 <=? n) && (n <=? 90) then ascii_of_nat (n + 32) else c in
      String c' (lower_ascii s')
  end.

(** [c in s] for a one-character ASCII [c] *)
Fixpoint py_contains (c : ascii) (s : string) : bool :=
  match s with
  | EmptyString => false
  | String d s' => Ascii.eqb c d || py_contains c s'
  end.

(** [s.replace(c, '')] for an ASCII [c] (its byte occurs in no multi-byte
    character) *)
Fixpoint py_remove (c : ascii) (s : string) : string :=
  match s with
  | EmptyString => EmptyString
  | String d s' => if Ascii.eqb c d then py_remove c s' else String d (py_remove c s')
  end.

(** [s.replace(c, d)] for ASCII [c] and [d] *)
Fixpoint py_replace (c d : ascii) (s : string) : string :=
  match s with
  | EmptyString => EmptyString
  | String e s' => String (if Ascii.eqb c e then d else e) (py_replace c d s')
  end.

(** The character properties that [str] methods read from the Unicode
    database of the running Python, by code point: [ch.isdigit()] (numeric
    type Digit or Decimal) and [unicodedata.decimal(ch)] (the value of a
    character of numeric type Decimal). *)
Record unicode_db := UnicodeDB {
  u_isdigit : Z -> bool;
  u_decimal : Z -> option nat }.

(** [any(ch.isdigit() for ch in s)] *)
Definition py_any_digit (isdigit : Z -> bool) (s : string) : bool :=
  existsb (fun ch => isdigit (code_point ch)) (utf8_chars s).

(* ------------------------------------------------------------------ *)
(** ** [float(s)] on a [str] (CPython's [PyFloat_FromString])

    [None] is the [ValueError]. The steps are those of CPython:
    - [_PyUnicode_TransformDecimalAndSpaceToASCII]: a character below 127
      is kept; another one becomes a space if it is whitespace, the ASCII
      digit of its decimal value if it has one, and otherwise ['?'], where
      the conversion stops;
    - [_Py_string_to_number_with_underscores]: an underscore is accepted
      only between two digits, and is dropped;
    - [float_from_string_inner]: the ASCII whitespace ([Py_ISSPACE]) around
      the text is stripped and [_PyOS_ascii_strtod] must read all the rest:
      an optional sign, then digits with an optional point (at least one
      digit) and an optional exponent, rounded to the nearest binary64 (ties
      to even; beyond the largest finite value, infinity), or else ["inf"],
      ["infinity"] or ["nan"] in any case ([_Py_parse_inf_or_nan]). *)

Fixpoint transform_chars (dec : Z -> option nat) (l : list string) : list ascii :=
  match l with
  | [] => []
  | ch :: l' =>
      let cp := code_point ch in
      if (cp <? 127)%Z then ascii_of_nat (Z.to_nat cp) :: transform_chars dec l'
      else if py_isspace cp then " "%char :: transform_chars dec l'
      else match dec cp with
           | Some d => ascii_of_nat (48 + d) :: transform_chars dec l'
           | None => ["?"%char]
           end
  end.

(** [c.isdigit()] on an ASCII byte, as C's ['0' <= c && c <= '9']. *)
Definition is_ascii_digit (c : ascii) : bool :=
  let n := nat_of_ascii c in (48 <=? n) && (n <=? 57).

Fixpoint remove_underscores (prev : ascii) (l : list ascii) : option (list ascii) :=
  match l with
  | [] => if Ascii.eqb prev "_"%char then None else Some []
  | c :: l' =>
      if Ascii.eqb c "_"%char then
        if is_ascii_digit prev then remove_underscores c l' else None
      else if Ascii.eqb prev "_"%char && negb (is_ascii_digit c) then None
      else option_map (cons c) (remove_underscores c l')
  end.

(** [Py_ISSPACE]: space, tab, LF, VT, FF and CR. *)
Definition py_isspace_ascii (c : ascii) : bool :=
  let n := nat_of_ascii c in ((9 <=? n) && (n <=? 13)) || (n =? 32).

Fixpoint lstrip_ascii (l : list ascii) : list ascii :=
  match l with
  | [] => []
  | c :: l' => if py_isspace_ascii c then lstrip_ascii l' else l
  end.

Definition strip_ascii (l : list ascii) : list ascii :=
  rev (lstrip_ascii (rev (lstrip_ascii l))).

Fixpoint read_digits (l : list ascii) (acc : Z) (n : nat) : Z * nat * list ascii :=
  match l with
  | c :: r =>
      if is_ascii_digit c
      then read_digits r (acc * 10 + Z.of_nat (nat_of_ascii c - 48))%Z (S n)
      else (acc, n, l)
  | [] => (acc, n, l)
  end.

Definition read_sign (l : list ascii) : bool * list ascii :=
  match l with
  | "-"%char :: r => (true, r)
  | "+"%char :: r => (false, r)
  | _ => (false, l)
  end.

(** The exponent part and the end of the text: [Some e] when the rest is
    empty ([e = 0]) or is an exponent and nothing after it. *)
Definition read_exponent (l : list ascii) : option Z :=
  match l with
  | [] => Some 0%Z
  | c :: r =>
      if Ascii.eqb c "e"%char || Ascii.eqb c "E"%char then
        let '(neg, r1) := read_sign r in
        match read_digits r1 0 0 with
        | (e, S _, []) => Some (if neg then - e else e)%Z
        | _ => None
        end
      else None
  end.

Definition lower_char (c : ascii) : ascii :=
  let n := nat_of_ascii c in if (65 <=? n) && (n <=? 90) then ascii_of_nat (n + 32) else c.

(** [_Py_parse_inf_or_nan] on the whole text. *)
Definition parse_inf_or_nan (l : list ascii) : option float :=
  let '(neg, r) := read_sign l in
  let w := string_of_list_ascii (map lower_char r) in
  if String.eqb w "inf" || String.eqb w "infinity" then
    Some (if neg then neg_infinity else infinity)
  else if String.eqb w "nan" then Some (if neg then PrimFloat.opp nan else nan)
  else None.

(** [(num, den)] with [num / den = n / (d * 2^k)]. *)
Definition scale2 (n d k : Z) : Z * Z :=
  if (0 <=? k)%Z then (n, d * 2 ^ k)%Z else (n * 2 ^ (- k), d)%Z.

(** The binary64 number nearest to [n / d] ([n, d > 0]; ties to even):
    the mantissa [q] of 53 bits (fewer for a subnormal) and the exponent
    [k] with [q * 2^k] the result, or [None] beyond the largest finite
    value. *)
Definition round_ratio (n d : Z) : option (Z * Z) :=
  let k0 := (Z.log2 n - Z.log2 d - 52)%Z in
  let k1 := let '(a, b) := scale2 n d k0 in if (a / b <? 2 ^ 52)%Z then (k0 - 1)%Z else k0 in
  let k := Z.max k1 (-1074) in
  let '(a, b) := scale2 n d k in
  let q := (a / b)%Z in
  let r := (a mod b)%Z in
  let q' := if (b <? 2 * r)%Z || ((2 * r =? b)%Z && Z.odd q) then (q + 1)%Z else q in
  let '(q'', k') := if (q' =? 2 ^ 53)%Z then (2 ^ 52, k + 1)%Z else (q', k) in
  if (971 <? k')%Z then None else Some (q'', k').

(** The binary64 value of the decimal [m * 10^e] ([m >= 0]) with the sign
    [neg]. A value below [10^-324] rounds to zero and one of at least
    [10^309] to infinity; these bounds are tested first, so that a huge
    exponent in the text does not make the computation huge. *)
Definition decimal_to_float (neg : bool) (m e : Z) : float :=
  let sf :=
    if (m =? 0)%Z then S754_zero neg
    else if (308 <? e)%Z then S754_infinity neg
    else if (Z.log2 m + 1 + e <? -324)%Z then S754_zero neg
    else
      let '(n, d) := if (0 <=? e)%Z then (m * 10 ^ e, 1)%Z else (m, 10 ^ (- e))%Z in
      match round_ratio n d with
      | None => S754_infinity neg
      | Some (q, k) =>
          match q with
          | Zpos p => S754_finite neg p k
          | _ => S754_zero neg
          end
      end in
  SF2Prim sf.

(** [_PyOS_ascii_strtod] on the whole stripped text. *)
Definition parse_float_ascii (l : list ascii) : option float :=
  let '(neg, l1) := read_sign l in
  let '(ip, ni, l2) := read_digits l1 0 0 in
  let '(m, nf, l3) :=
    match l2 with
    | "."%char :: r => read_digits r ip 0
    | _ => (ip, 0%nat, l2)
    end in
  if (ni + nf =? 0)%nat then parse_inf_or_nan l else
  match read_exponent l3 with
  | None => None
  | Some e => Some (decimal_to_float neg m (e - Z.of_nat nf)%Z)
  end.

(** [float(s)], given the decimal values of the Unicode database. *)
Definition py_float (decimal : Z -> option nat) (s : string) : option float :=
  match remove_underscores "000"%char (transform_chars decimal (utf8_chars s)) with
  | None => None
  | Some t => parse_float_ascii (strip_ascii t)
  end.

(* ------------------------------------------------------------------ *)
(** ** [coerce_value]

<<
def coerce_value(v):
    if v is None:
        return None
    if isinstance(v, (int, float, bool)):
        return v
    if isinstance(v, str):
        s = v.strip()
        if s.lower() in ("true", "false"):
            return s.lower() == "true"
        if "," in s:
            s2 = s.replace(".", '').replace(",", ".")
        else:
            s2 = s
        try:
            if any(ch.isdigit() for ch in s2):
                return float(s2)
        except Exception:
            return v
    return v
>>
    [coerce_value_with] takes [ch.isdigit()] and the [float] parser as
    parameters, so that properties about when the parser is consulted hold
    for any of them; [coerce_value] uses the tables of a Unicode database
    and [py_float]. *)

(** [s2]: the stripped text with PT-BR separators rewritten. *)
Definition coerce_text (v : string) : string :=
  let s := py_strip v in
  if py_contains ","%char s
  then py_replace ","%char "."%char (py_remove "."%char s)
  else s.

Definition coerce_value_with (isdigit : Z -> bool) (float_of : string -> option float)
    (v : pyval) : pyval :=
  match v with
  | PNone => PNone
  | PInt _ | PFloat _ | PBool _ => v
  | PStr s0 =>
      let s := py_strip s0 in
      if String.eqb (lower_ascii s) "true" || String.eqb (lower_ascii s) "false"
      then PBool (String.eqb (lower_ascii s) "true")
      else
        let s2 := coerce_text s0 in
        if py_any_digit isdigit s2 then
          match float_of s2 with
          | Some f => PFloat f
          | None => v
          end
        else v
  | _ => v
  end.

Definition coerce_value (u : unicode_db) (v : pyval) : pyval :=
  coerce_value_with (u_isdigit u) (py_float (u_decimal u)) v.

(** The case-insensitive test [s.strip().lower() in ("true", "false")]. *)
Definition is_bool_word (s : string) : bool :=
  String.eqb (lower_ascii (py_strip s)) "true" || String.eqb (lower_ascii (py_strip s)) "false".

(** [ch.isdigit()] on the ASCII range: the ten digits. *)
Definition ascii_isdigit (cp : Z) : bool := ((48 <=? cp) && (cp <=? 57))%Z.

(** An excerpt of the Unicode database: the decimal digits of ASCII,
    ARABIC-INDIC (U+0660..U+0669) and FULLWIDTH (U+FF10..U+FF19), and the
    digits SUPERSCRIPT TWO, THREE and ONE, which have no decimal value. *)
Definition excerpt_decimal (cp : Z) : option nat :=
  if ((48 <=? cp) && (cp <=? 57))%Z then Some (Z.to_nat (cp - 48))
  else if ((1632 <=? cp) && (cp <=? 1641))%Z then Some (Z.to_nat (cp - 1632))
  else if ((65296 <=? cp) && (cp <=? 65305))%Z then Some (Z.to_nat (cp - 65296))
  else None.

Definition unicode_excerpt : unicode_db :=
  UnicodeDB (fun cp => match excerpt_decimal cp with
                       | Some _ => true
                       | None => ((cp =? 178) || (cp =? 179) || (cp =? 185))%Z
                       end)
            excerpt_decimal.


(* ------------------------------------------------------------------ *)
(** ** openpyxl workbooks

    A worksheet keeps its materialised cells in [_cells], keyed by
    [(row, column)]; [ws.cell(r, c)] materialises an absent cell (empty
    value, default style). A workbook is the ordered list [wb._sheets] of
    worksheets and chart sheets. *)

(** [Color]: its [type] and the payload of that type (tint ignored). *)
Inductive color :=
  | ColorRgb (rgb : string)
  | ColorIndexed (index : nat)
  | ColorTheme (theme : nat)
  | ColorAuto.

(** [cell.fill]: a [PatternFill], with its [patternType] ([None] when
    unset) and [fgColor], or a [GradientFill], which has neither
    attribute. *)
Inductive fill :=
  | PatternFill (patternType : option string) (fgColor : color)
  | GradientFill.

Record cell := Cell { value : pyval; cell_fill : fill }.

(** A freshly created cell: no value, the default [PatternFill()] whose
    [fgColor] is [Color()] (rgb ["00000000"]). *)
Definition empty_cell : cell :=
  Cell PNone (PatternFill None (ColorRgb "00000000")).

Record worksheet := Worksheet { title : string; _cells : gmap (nat * nat) cell }.

Inductive sheet :=
  | SheetWorksheet (ws : worksheet)
  | SheetChartsheet (chart_title : string).

Definition sheet_title (s : sheet) : string :=
  match s with SheetWorksheet ws => title ws | SheetChartsheet t => t end.

(** [wb._sheets] *)
Definition workbook := list sheet.

(** [wb.sheetnames] *)
Definition sheetnames (wb : workbook) : list string := map sheet_title wb.

(** [wb.worksheets] *)
Definition worksheets (wb : workbook) : list worksheet :=
  omap (fun s => match s with SheetWorksheet ws => Some ws | _ => None end) wb.

Definition chartsheet_titles (wb : workbook) : list string :=
  omap (fun s => match s with SheetChartsheet t => Some t | _ => None end) wb.

(** [wb[key]]: the worksheets are searched first, then the chart sheets. *)
Definition wb_getitem (wb : workbook) (key : string) : option sheet :=
  match list_find (fun ws => title ws = key) (worksheets wb) with
  | Some (_, ws) => Some (SheetWorksheet ws)
  | None =>
      if decide (key ∈ chartsheet_titles wb) then Some (SheetChartsheet key) else None
  end.

(** The worksheet named [key] after a call mutated it in place. *)
Definition wb_replace (wb : workbook) (ws' : worksheet) : workbook :=
  map (fun s => match s with
                | SheetWorksheet ws =>
                    if String.eqb (title ws) (title ws') then SheetWorksheet ws' else s
                | _ => s
                end) wb.

(** [ws.max_row] / [ws.max_column]:
<<
        max_row = 1
        if self._cells:
            rows = set(c[0] for c in self._cells)
            max_row = max(rows)
        return max_row
>> *)
Definition max_row (ws : worksheet) : nat :=
  match map (fun kv => kv.1.1) (map_to_list (_cells ws)) with
  | [] => 1
  | rows => list_max rows
  end.

Definition max_column (ws : worksheet) : nat :=
  match map (fun kv => kv.1.2) (map_to_list (_cells ws)) with
  | [] => 1
  | cols => list_max cols
  end.

(** The cell found at [(r, c)], materialised or not. *)
Definition cell_at (ws : worksheet) (r c : nat) : cell :=
  match _cells ws !! (r, c) with Some x => x | None => empty_cell end.

(** [ws.cell(r, c)]: returns the cell, creating it when absent. *)
Definition ws_cell (ws : worksheet) (r c : nat) : cell * worksheet :=
  match _cells ws !! (r, c) with
  | Some x => (x, ws)
  | None => (empty_cell, Worksheet (title ws) (<[(r, c) := empty_cell]> (_cells ws)))
  end.

(** [get_column_letter]: bijective base 26 ([1 -> A], [27 -> AA]). *)
Fixpoint column_letters (fuel n : nat) (acc : string) : string :=
  match fuel with
  | O => acc
  | S fuel' =>
      if n =? 0 then acc
      else column_letters fuel' ((n - 1) / 26)
             (String (ascii_of_nat (65 + (n - 1) mod 26)) acc)
  end.

Definition get_column_letter (c : nat) : string := column_letters c c EmptyString.

(** openpyxl's [get_column_letter] reads a table built for the columns
    [1..18278] ([A..ZZZ]):
<<
def get_column_letter(col_idx):
    try:
        return _STRING_COL_CACHE[col_idx]
    except KeyError:
        raise ValueError("Invalid column index {0}".format(col_idx))
>> *)
Definition py_get_column_letter (c : nat) : exn + string :=
  if (1 <=? c) && (c <=? 18278) then inr (get_column_letter c)
  else inl (Exn ("Invalid column index " ++ pretty (N.of_nat c))).

(* ------------------------------------------------------------------ *)
(** ** [is_formula] and [is_probably_input_cell]

<<
def is_formula(value) -> bool:
    return isinstance(value, str) and value.startswith("=")

def is_probably_input_cell(cell) -> bool:
    v = cell.value
    if v is None or v == '':
        return False
    if is_formula(v):
        return False
    fill = cell.fill
    if fill and fill.patternType == "solid" and fill.fgColor and fill.fgColor.type == "theme":
        if fill.fgColor.theme == 7:
            return True
    return False
>>
    openpyxl's fill and [Color] objects are always truthy. Reading
    [patternType] from a [GradientFill] raises [AttributeError]. *)
Definition is_formula (v : pyval) : bool :=
  match v with
  | PStr (String "="%char _) => true
  | _ => false
  end.

Definition is_empty_value (v : pyval) : bool :=
  match v with
  | PNone => true
  | PStr EmptyString => true
  | _ => false
  end.

Definition is_probably_input_cell (x : cell) : exn + bool :=
  if is_empty_value (value x) then inr false
  else if is_formula (value x) then inr false
  else
    match cell_fill x with
    | GradientFill => inl (Exn "'GradientFill' object has no attribute 'patternType'")
    | PatternFill pt fg =>
        inr (match pt, fg with
             | Some "solid", ColorTheme t => t =? 7
             | _, _ => false
             end)
    end.

(* ------------------------------------------------------------------ *)
(** ** [discover_inputs]

<<
def discover_inputs(wb: openpyxl.Workbook, sheet_name: str):
    if sheet_name not in wb.sheetnames:
        raise ValueError(
            f"Aba '{sheet_name}' não encontrada.\n"
            f"Abas disponíveis: {wb.sheetnames}"
        )
    ws = wb[sheet_name]
    inputs = []
    for r in range(1, ws.max_row + 1):
        for c in range(1, ws.max_column + 1):
            cell = ws.cell(r, c)
            if not is_probably_input_cell(cell):
                continue
            addr = f"{sheet_name}!{get_column_letter(c)}{r}"
            label = ws.cell(r, 2).value
            label = str(label).strip() if label else addr
            inputs.append({"label": label, "address": addr,
                           "default": cell.value, "row": r, "col": c})
    inputs.sort(key=lambda x: (x["row"], x["col"]))
    return inputs
>>
    [range(1, ws.max_row + 1)] is evaluated once; [range(1, ws.max_column + 1)]
    once per row, on the worksheet as mutated so far. *)

Record descriptor := Descriptor {
  label : string;
  address : string;
  default_value : pyval;  (* the ["default"] key *)
  row : nat;
  col : nat }.

(** Python's [repr] of a string (ASCII control characters escaped, other
    bytes kept) and of a list of strings. *)
Definition hex_digit (n : nat) : ascii :=
  if n <? 10 then ascii_of_nat (48 + n) else ascii_of_nat (87 + n).

Fixpoint repr_body (q : ascii) (s : string) : string :=
  match s with
  | EmptyString => EmptyString
  | String c s' =>
      let n := nat_of_ascii c in
      let esc :=
        if Ascii.eqb c "\"%char then String "\"%char (String "\"%char EmptyString)
        else if Ascii.eqb c q then String "\"%char (String q EmptyString)
        else if n =? 9 then "\t"
        else if n =? 10 then "\n"
        else if n =? 13 then "\r"
        else if (n <? 32) || (n =? 127)
        then String "\"%char (String "x"%char
               (String (hex_digit (n / 16)) (String (hex_digit (n mod 16)) EmptyString)))
        else String c EmptyString in
      esc ++ repr_body q s'
  end.

Definition py_repr_str (s : string) : string :=
  let dq := ascii_of_nat 34 in
  let q := if py_contains "'"%char s && negb (py_contains dq s) then dq else "'"%char in
  String q (repr_body q s ++ String q EmptyString).


(** The sort key [(row, col)], compared lexicographically. *)
Definition key_le (d1 d2 : descriptor) : Prop :=
  row d1 < row d2 \/ (row d1 = row d2 /\ col d1 <= col d2).

#[global] Instance key_le_dec : RelDecision key_le.
Proof. intros d1 d2. unfold key_le. apply _. Defined.

#[global] Instance key_le_total : Total key_le.
Proof. intros d1 d2. unfold key_le. lia. Qed.

Section Discovery.
(** [str(x)] of a cell value and [repr(s)] of a [str], from the Python
    runtime. *)
Variable py_str : pyval -> string.
Variable py_repr : string -> string.

(** [repr] of a list of strings. *)
Definition py_repr_list (l : list string) : string :=
  "[" ++ String.concat ", " (map py_repr l) ++ "]".

Definition sheet_not_found (sheet_name : string) (names : list string) : exn :=
  Exn ("Aba '" ++ sheet_name ++ "' não encontrada." ++ String (ascii_of_nat 10) EmptyString
       ++ "Abas disponíveis: " ++ py_repr_list names).

Fixpoint scan_cols (sheet_name : string) (r : nat) (cs : list nat) (ws : worksheet)
    : exn + (list descriptor * worksheet) :=
  match cs with
  | [] => inr ([], ws)
  | c :: cs' =>
      let '(x, ws1) := ws_cell ws r c in
      match is_probably_input_cell x with
      | inl e => inl e
      | inr false => scan_cols sheet_name r cs' ws1
      | inr true =>
          match py_get_column_letter c with
          | inl e => inl e
          | inr letter =>
              let addr := sheet_name ++ "!" ++ letter ++ pretty (N.of_nat r) in
              let '(lcell, ws2) := ws_cell ws1 r 2 in
              match py_bool (value lcell) with
              | inl e => inl e
              | inr t =>
                  let lbl := if t then py_strip (py_str (value lcell)) else addr in
                  match scan_cols sheet_name r cs' ws2 with
                  | inl e => inl e
                  | inr (ds, ws3) => inr (Descriptor lbl addr (value x) r c :: ds, ws3)
                  end
              end
          end
      end
  end.

Fixpoint scan_rows (sheet_name : string) (rs : list nat) (ws : worksheet)
    : exn + (list descriptor * worksheet) :=
  match rs with
  | [] => inr ([], ws)
  | r :: rs' =>
      match scan_cols sheet_name r (seq 1 (max_column ws)) ws with
      | inl e => inl e
      | inr (ds1, ws1) =>
          match scan_rows sheet_name rs' ws1 with
          | inl e => inl e
          | inr (ds2, ws2) => inr ((ds1 ++ ds2)%list, ws2)
          end
      end
  end.

(** Returns the sorted descriptors and the workbook as the call left it. *)
Definition discover_inputs (wb : workbook) (sheet_name : string)
    : exn + (list descriptor * workbook) :=
  if negb (bool_decide (sheet_name ∈ sheetnames wb))
  then inl (sheet_not_found sheet_name (sheetnames wb))
  else
    match wb_getitem wb sheet_name with
    | Some (SheetWorksheet ws) =>
        match scan_rows sheet_name (seq 1 (max_row ws)) ws with
        | inl e => inl e
        | inr (ds, ws') => inr (merge_sort key_le ds, wb_replace wb ws')
        end
    | Some (SheetChartsheet _) =>
        inl (Exn "'Chartsheet' object has no attribute 'max_row'")
    | None => inl (Exn (py_repr sheet_name))  (* KeyError *)
    end.
End Discovery.

(* ------------------------------------------------------------------ *)
(** ** xlcalculator's model and [build_model_from_workbook]

<<
def build_model_from_workbook(wb: openpyxl.Workbook) -> model.Model:
    mdl = model.Model()
    for ws in wb.worksheets:
        sheet = ws.title
        for row in ws.iter_rows():
            for cell in row:
                v = cell.value
                if v is None:
                    continue
                addr = f"{sheet}!{cell.coordinate}"
                has_formula = isinstance(v, str) and v.startswith("=")
                xl_cell = xltypes.XLCell(addr, value=None if has_formula else v)
                if has_formula:
                    xl_cell.formula = xltypes.XLFormula(
                        v, sheet_name=sheet, reference=addr
                    )
                    for term in xl_cell.formula.terms:
                        if ":" in term and term not in mdl.ranges:
                            mdl.ranges[term] = xltypes.XLRange(term, term)
                mdl.cells[addr] = xl_cell
                if xl_cell.formula:
                    mdl.formulae[addr] = xl_cell.formula
    mdl.build_code()
    return mdl
>> *)

(** [XLFormula]: its text, owning sheet, reference and reference terms. *)
Record xlformula := XLFormula {
  formula : string; sheet_name : string; reference : string; terms : list string }.

Record xlcell := XLCell { xl_address : string; xl_value : pyval; xl_formula : option xlformula }.

Record xlrange := XLRange { range_address : string; range_name : string }.

Record model := Model {
  cells : gmap string xlcell;
  formulae : gmap string xlformula;
  ranges : gmap string xlrange }.

Definition empty_model : model := Model ∅ ∅ ∅.

(** [cell.coordinate] *)
Definition coordinate (r c : nat) : string := get_column_letter c ++ pretty (N.of_nat r).

(** [":" in term] *)
Definition is_range_term (term : string) : bool := py_contains ":"%char term.

Section Build.
(** The reference terms that xlcalculator's formula tokenizer extracts from
    [XLFormula(text, sheet_name=sheet, reference=addr)]. *)
Variable formula_terms : string -> string -> string -> list string.

Fixpoint register_ranges (ts : list string) (rs : gmap string xlrange) : gmap string xlrange :=
  match ts with
  | [] => rs
  | term :: ts' =>
      let rs' :=
        if is_range_term term && bool_decide (rs !! term = None)
        then <[term := XLRange term term]> rs else rs in
      register_ranges ts' rs'
  end.

(** The body of the innermost loop, for the cell at [(r, c)] of [sheet]. *)
Definition build_cell (sheet : string) (r c : nat) (v : pyval) (mdl : model) : model :=
  match v with
  | PNone => mdl
  | _ =>
      let addr := sheet ++ "!" ++ coordinate r c in
      if is_formula v then
        let text := match v with PStr s => s | _ => EmptyString end in
        let f := XLFormula text sheet addr (formula_terms text sheet addr) in
        let rs := register_ranges (terms f) (ranges mdl) in
        Model (<[addr := XLCell addr PNone (Some f)]> (cells mdl))
              (<[addr := f]> (formulae mdl)) rs
      else
        Model (<[addr := XLCell addr v None]> (cells mdl)) (formulae mdl) (ranges mdl)
  end.

(** [ws.iter_rows()] walks rows [1..max_row] and, in each, columns
    [1..max_column], both bounds read once. The cells it materialises on the
    way are empty, so the loop body skips them; the walk reads [cell_at]. *)
Fixpoint build_row (ws : worksheet) (r : nat) (cs : list nat) (mdl : model) : model :=
  match cs with
  | [] => mdl
  | c :: cs' => build_row ws r cs' (build_cell (title ws) r c (value (cell_at ws r c)) mdl)
  end.

Fixpoint build_rows (ws : worksheet) (rs : list nat) (mdl : model) : model :=
  match rs with
  | [] => mdl
  | r :: rs' => build_rows ws rs' (build_row ws r (seq 1 (max_column ws)) mdl)
  end.

Fixpoint build_sheets (wss : list worksheet) (mdl : model) : model :=
  match wss with
  | [] => mdl
  | ws :: wss' => build_sheets wss' (build_rows ws (seq 1 (max_row ws)) mdl)
  end.

(** [mdl.build_code()] parses each formula into its AST; it leaves the
    cell, formula and range maps as they are, so it is the identity on
    the maps modelled here. *)
Definition build_model_from_workbook (wb : workbook) : model :=
  build_sheets (worksheets wb) empty_model.
End Build.

(** Modelled from the spec: [Evaluator.evaluate] of the external
    xlcalculator engine (§4.4). A cell address unknown to the model raises;
    a cell without a formula evaluates to its stored value; a formula cell
    is evaluated by the engine, the parameter [eval_formula]. *)
Definition evaluate (eval_formula : model -> xlformula -> exn + pyval)
    (mdl : model) (addr : string) : exn + pyval :=
  match cells mdl !! addr with
  | None => inl (Exn (py_repr_str addr))
  | Some x =>
      match xl_formula x with
      | None => inr (xl_value x)
      | Some f => eval_formula mdl f
      end
  end.

(* ------------------------------------------------------------------ *)
(** ** Vocabulary for the properties of [discover_inputs] *)

(** openpyxl only stores cells at rows and columns [>= 1]. *)
Definition wf_worksheet (ws : worksheet) : Prop :=
  Forall (fun kx : (nat * nat) * cell => 1 <= kx.1.1 /\ 1 <= kx.1.2) (map_to_list (_cells ws)).

(** [ws'] is [ws] with possibly more materialised cells, all empty, at
    columns [>= 1] and at rows satisfying [P]. *)
Definition grows (P : nat -> Prop) (ws ws' : worksheet) : Prop :=
  title ws' = title ws /\
  (forall k x, _cells ws !! k = Some x -> _cells ws' !! k = Some x) /\
  (forall k x, _cells ws' !! k = Some x ->
     _cells ws !! k = Some x \/ (x = empty_cell /\ P k.1 /\ 1 <= k.2)).

(** A stateful scan [res] agrees with a pure result [spec]: same exception,
    or same value with a final state satisfying [Q]. *)
Definition scan_agrees {A} (res : exn + (A * worksheet)) (spec : exn + A)
    (Q : worksheet -> Prop) : Prop :=
  match res, spec with
  | inl e, inl e' => e = e'
  | inr (a, ws'), inr a' => a = a' /\ Q ws'
  | _, _ => False
  end.

(** [is_probably_input_cell] returns [True]. *)
Definition input_bit (x : cell) : bool :=
  match is_probably_input_cell x with inr true => true | _ => false end.


(** Number of descriptors at [(r, c)]. *)
Definition count_at (ds : list descriptor) (r c : nat) : nat :=
  length (filter (fun d => row d = r /\ col d = c) ds).

Section InputsOf.
Variable py_str : pyval -> string.

(** The descriptor [discover_inputs] builds for the input cell at [(r, c)]. *)
Definition input_descriptor (sheet_name : string) (ws : worksheet) (r c : nat)
    : exn + descriptor :=
  match py_get_column_letter c with
  | inl e => inl e
  | inr letter =>
      let addr := sheet_name ++ "!" ++ letter ++ pretty (N.of_nat r) in
      let lcell := cell_at ws r 2 in
      match py_bool (value lcell) with
      | inl e => inl e
      | inr t =>
          inr (Descriptor (if t then py_strip (py_str (value lcell)) else addr)
                 addr (value (cell_at ws r c)) r c)
      end
  end.

(** The descriptors of the input cells of row [r] at columns [cs], read
    from the cells of [ws] without materialising anything. *)
Fixpoint inputs_of_cols (sheet_name : string) (ws : worksheet) (r : nat) (cs : list nat)
    : exn + list descriptor :=
  match cs with
  | [] => inr []
  | c :: cs' =>
      match is_probably_input_cell (cell_at ws r c) with
      | inl e => inl e
      | inr true =>
          match input_descriptor sheet_name ws r c with
          | inl e => inl e
          | inr d =>
              match inputs_of_cols sheet_name ws r cs' with
              | inl e => inl e
              | inr ds => inr (d :: ds)
              end
          end
      | inr false => inputs_of_cols sheet_name ws r cs'
      end
  end.

Fixpoint inputs_of_rows (sheet_name : string) (ws : worksheet) (rs : list nat) (m : nat)
    : exn + list descriptor :=
  match rs with
  | [] => inr []
  | r :: rs' =>
      match inputs_of_cols sheet_name ws r (seq 1 m) with
      | inl e => inl e
      | inr ds1 =>
          match inputs_of_rows sheet_name ws rs' m with
          | inl e => inl e
          | inr ds2 => inr (ds1 ++ ds2)%list
          end
      end
  end.
End InputsOf.

(* ------------------------------------------------------------------ *)
(** ** A small workbook used to instantiate the properties

    Sheet ["S"]: [B1] holds the label ["Taxa"], [C1] is an input (value 5,
    solid fill with theme colour 7). *)
Definition demo_fill : fill := PatternFill (Some "solid") (ColorTheme 7).

Definition demo_cells : gmap (nat * nat) cell :=
  <[(1, 3) := Cell (PInt 5) demo_fill]> (<[(1, 2) := Cell (PStr "Taxa") (cell_fill empty_cell)]> ∅).

Definition demo_ws : worksheet := Worksheet "S" demo_cells.

Definition demo_wb : workbook := [SheetWorksheet demo_ws].

(** After one scan, [A1] has been materialised. *)
Definition demo_ws_after : worksheet := Worksheet "S" (<[(1, 1) := empty_cell]> demo_cells).

Definition demo_descriptor : descriptor := Descriptor "Taxa" "S!C1" (PInt 5) 1 3.

(** [str()] on the values of the demo workbook. *)
Definition demo_str (v : pyval) : string :=
  match v with
  | PStr s => s
  | PInt z => pretty z
  | _ => EmptyString
  end.

(** [repr()] on the names of the demo workbooks, which hold no quote,
    backslash or character to escape. *)
Definition demo_repr (s : string) : string := "'" ++ s ++ "'".

(** The same sheet with [B1 = 0]: the label cell holds a value, but a falsy one. *)
Definition demo_ws_zero : worksheet :=
  Worksheet "S" (<[(1, 3) := Cell (PInt 5) demo_fill]>
                   (<[(1, 2) := Cell (PInt 0) (cell_fill empty_cell)]> ∅)).

Definition demo_wb_zero : workbook := [SheetWorksheet demo_ws_zero].




(** Every character of [s] satisfies [p]. *)
Fixpoint str_all (p : ascii -> bool) (s : string) : bool :=
  match s with
  | EmptyString => true
  | String ch s' => p ch && str_all p s'
  end.

(** [ch.isupper()] for ASCII letters. *)
Definition py_isupper (ch : ascii) : bool :=
  let n := nat_of_ascii ch in (65 <=? n) && (n <=? 90).

(** The column index that a string of letters ["A".."Z"] spells in the
    bijective base-26 numbering of spreadsheet columns. *)
Fixpoint col_value (s : string) : nat :=
  match s with
  | EmptyString => 0
  | String ch s' => (nat_of_ascii ch - 64) * 26 ^ String.length s' + col_value s'
  end.

(** A sheet whose only cell [A1] holds the empty string. *)
Definition demo_ws_blank : worksheet :=
  Worksheet "S" (<[(1, 1) := Cell (PStr EmptyString) (cell_fill empty_cell)]> ∅).

Definition demo_wb_blank : workbook := [SheetWorksheet demo_ws_blank].

(** A tokenizer that finds no reference, and an engine that fails on every
    formula. *)
Definition demo_terms (text sheet addr : string) : list string := [].

Definition demo_eval_formula (mdl : model) (f : xlformula) : exn + pyval :=
  inl (Exn "unsupported").

(** [Evaluator(mdl).evaluate] as the [evaluate] of [safe_eval]; it keeps
    no state of its own beyond the model. *)
Definition model_evaluate (eval_formula : model -> xlformula -> exn + pyval)
    (mdl : model) (addr : string) : (exn + pyval) * model :=
  (evaluate eval_formula mdl addr, mdl).

(** [t] is a range term of the formula in the cell [(r, c)] of [ws]: the
    cell holds a formula text whose reference terms include [t], and [t]
    contains [":"]. *)
Definition cell_range_term (ft : string -> string -> string -> list string)
    (ws : worksheet) (r c : nat) (t : string) : Prop :=
  is_range_term t = true /\
  exists text, value (cell_at ws r c) = PStr text /\ is_formula (PStr text) = true /\
               t ∈ ft text (title ws) (title ws ++ "!" ++ coordinate r c).

(** [1 + 26 + ... + 26^(n-1)]: the smallest column index spelled with [n]
    letters. *)
Fixpoint geo26 (n : nat) : nat :=
  match n with
  | O => 0
  | S n' => 26 ^ n' + geo26 n'
  end.

(** A sheet with a literal in [A1] and a formula in [B1]. *)
Definition demo_ws_formula : worksheet :=
  Worksheet "S" (<[(1, 2) := Cell (PStr "=A1*2") (cell_fill empty_cell)]>
                   (<[(1, 1) := Cell (PInt 2) (cell_fill empty_cell)]> ∅)).

Definition demo_wb_formula : workbook := [SheetWorksheet demo_ws_formula].

(* ------------------------------------------------------------------ *)
(** ** Locating the workbook: [find_workbook_in_cwd]

<<
PREFERRED_FILES = [
    "simulador.xlsx",
    "Cópia de Simulador Economia Circular Verde (v.27.03.2025) (2).xlsx",
]

def find_workbook_in_cwd() -> Path | None:
    cwd = Path(".").resolve()
    for name in PREFERRED_FILES:
        p = cwd / name
        if p.exists() and p.is_file() and not p.name.startswith("~$"):
            return p
    for p in cwd.glob("*.xlsx"):
        if p.is_file() and not p.name.startswith("~$"):
            return p
    return None
>>
    The working directory is the list of its entries in the order the
    file system lists them (the order of [cwd.glob]); an entry is a file or
    not ([is_file]).  [cwd / name] denotes the first entry of that name, and
    has that name as its [.name].  The pattern ["*.xlsx"] matches every
    name that ends in [".xlsx"] (pathlib's wildcard also matches names that
    start with a dot).  A path is returned as its name. *)
Record dir_entry := DirEntry { entry_name : string; entry_is_file : bool }.

Definition PREFERRED_FILES : list string :=
  ["simulador.xlsx";
   "Cópia de Simulador Economia Circular Verde (v.27.03.2025) (2).xlsx"].

Fixpoint py_startswith (s pre : string) : bool :=
  match pre, s with
  | EmptyString, _ => true
  | String c pre', String d s' => Ascii.eqb c d && py_startswith s' pre'
  | String _ _, EmptyString => false
  end.

Definition py_endswith (s suf : string) : bool :=
  (String.length suf <=? String.length s) &&
  String.eqb (substring (String.length s - String.length suf) (String.length suf) s) suf.

Definition path_entry (cwd : list dir_entry) (name : string) : option dir_entry :=
  find (fun e => String.eqb (entry_name e) name) cwd.

Definition path_exists (cwd : list dir_entry) (name : string) : bool :=
  match path_entry cwd name with Some _ => true | None => false end.

Definition path_is_file (cwd : list dir_entry) (name : string) : bool :=
  match path_entry cwd name with Some e => entry_is_file e | None => false end.

Definition glob_xlsx (cwd : list dir_entry) : list dir_entry :=
  List.filter (fun e => py_endswith (entry_name e) ".xlsx") cwd.

Definition find_workbook_in_cwd (cwd : list dir_entry) : option string :=
  match find (fun name => path_exists cwd name && path_is_file cwd name &&
                          negb (py_startswith name "~$")) PREFERRED_FILES with
  | Some name => Some name
  | None =>
      match find (fun p => entry_is_file p && negb (py_startswith (entry_name p) "~$"))
                 (glob_xlsx cwd) with
      | Some p => Some (entry_name p)
      | None => None
      end
  end.

(* ------------------------------------------------------------------ *)
(** ** Choosing the workbook of the page

<<
if uploaded is not None:
    xlsx_bytes = uploaded.getvalue()
    xlsx_name = uploaded.name
else:
    xlsx_path = find_workbook_in_cwd()
    if xlsx_path:
        xlsx_bytes = xlsx_path.read_bytes()
        xlsx_name = xlsx_path.name

if xlsx_bytes is None or xlsx_name is None:
    st.error("... Não encontrei nenhum arquivo .xlsx válido ...")
    st.stop()

if xlsx_name.startswith("~$"):
    st.error("... Você selecionou um arquivo temporário do Excel ...")
    st.stop()
>>
    An upload is its name and its bytes; [read_bytes] reads a file of the
    working directory and may raise ([OSError], e.g. [PermissionError] on a
    workbook Excel holds open), which nothing catches: the script ends with
    that exception.  A [Path] is always truthy.  The page either stops with
    one of the two errors, ends with the exception of [read_bytes], or goes
    on with a name and its bytes. *)
Inductive stop_reason := NoWorkbook | TemporaryFile.

Inductive selection :=
  | SelectStop (why : stop_reason)
  | SelectProceed (xlsx_name : string) (xlsx_bytes : list Byte.byte)
  | SelectCrash (e : exn).

Definition select_workbook (uploaded : option (string * list Byte.byte))
    (cwd : list dir_entry) (read_bytes : string -> exn + list Byte.byte) : selection :=
  let read :=
    match uploaded with
    | Some (n, b) => inr (Some b, Some n)
    | None =>
        match find_workbook_in_cwd cwd with
        | Some p =>
            match read_bytes p with
            | inl e => inl e
            | inr b => inr (Some b, Some p)
            end
        | None => inr (None, None)
        end
    end in
  match read with
  | inl e => SelectCrash e
  | inr (Some b, Some n) =>
      if py_startswith n "~$" then SelectStop TemporaryFile else SelectProceed n b
  | inr (_, _) => SelectStop NoWorkbook
  end.

(** A directory listing with an Excel lock file, a folder and a workbook. *)
Definition demo_cwd : list dir_entry :=
  [DirEntry "~$simulador.xlsx" true; DirEntry "dados.xlsx" false;
   DirEntry "notas.txt" true; DirEntry "simulador.xlsx" true].

(* ================================================================== *)
(** * Properties *)

Lemma first_flat_empty (rows : list (list pyval)) :
  Forall (fun r => r = []) rows ->
  _unwrap_excel_value (PArray rows) = inr PNone.
Proof.
  induction 1 as [|r rows Hr _ IH]; [reflexivity|].
  subst r. exact IH.
Qed.

Lemma unwrap_primitive (v : pyval) :
  is_primitive v = true -> _unwrap_excel_value v = inr v.
Proof. destruct v; simpl; congruence. Qed.

(** C1: [safe_eval] never raises. An exception [e] raised by the evaluator
    or by the unwrapping becomes the string ["Erro: " ++ str(e)]; otherwise
    the unwrapped value is returned. In the KPI loop every output cell is
    evaluated with [safe_eval], whatever happened to the cells before it,
    and one value is reported per output cell. *)
Theorem safe_eval_isolates_failures (Ev : Type)
    (evaluate : Ev -> string -> (exn + pyval) * Ev) :
  (forall ev addr e ev',
     evaluate ev addr = (inl e, ev') ->
     safe_eval evaluate ev addr = (PStr ("Erro: " ++ exn_msg e), ev')) /\
  (forall ev addr raw e ev',
     evaluate ev addr = (inr raw, ev') -> _unwrap_excel_value raw = inl e ->
     safe_eval evaluate ev addr = (PStr ("Erro: " ++ exn_msg e), ev')) /\
  (forall ev addr raw v ev',
     evaluate ev addr = (inr raw, ev') -> _unwrap_excel_value raw = inr v ->
     safe_eval evaluate ev addr = (v, ev')) /\
  (forall ev pre name addr post,
     kpi_batch evaluate ev (pre ++ (name, addr) :: post)%list =
       let '(vs1, ev1) := kpi_batch evaluate ev pre in
       let '(v, ev2) := safe_eval evaluate ev1 addr in
       let '(vs2, ev3) := kpi_batch evaluate ev2 post in
       ((vs1 ++ (name, v) :: vs2)%list, ev3)) /\
  (forall ev outputs, length (kpi_batch evaluate ev outputs).1 = length outputs).
Proof.
  split; [|split; [|split; [|split]]].
  - intros ev addr e ev' H. unfold safe_eval. rewrite H. reflexivity.
  - intros ev addr raw e ev' H Hu. unfold safe_eval. rewrite H, Hu. reflexivity.
  - intros ev addr raw v ev' H Hu. unfold safe_eval. rewrite H, Hu. reflexivity.
  - intros ev pre name addr post. revert ev.
    induction pre as [|[n a] pre IH]; intros ev; simpl.
    + destruct (safe_eval evaluate ev addr) as [v ev2].
      destruct (kpi_batch evaluate ev2 post). reflexivity.
    + destruct (safe_eval evaluate ev a) as [v1 ev1]. rewrite IH.
      destruct (kpi_batch evaluate ev1 pre) as [vs1 ev1'].
      destruct (safe_eval evaluate ev1' addr) as [v ev2].
      destruct (kpi_batch evaluate ev2 post). reflexivity.
  - intros ev outputs. revert ev.
    induction outputs as [|[n a] outputs IH]; intros ev; simpl; [reflexivity|].
    destruct (safe_eval evaluate ev a) as [v ev1].
    specialize (IH ev1). destruct (kpi_batch evaluate ev1 outputs). simpl in *.
    congruence.
Qed.

(** The body of [IF_SAFE] invokes at most the branch selected by the
    unwrapped test, and its result does not depend on the other branch. *)
Lemma IF_SAFE_body_short_circuit :
  forall test vt vf,
    (TrueBranch ∈ (IF_SAFE_body test vt vf).1 -> selected_branch test = inr true) /\
    (FalseBranch ∈ (IF_SAFE_body test vt vf).1 -> selected_branch test = inr false) /\
    (selected_branch test = inr true ->
       (forall vf', IF_SAFE_body test vt vf' = IF_SAFE_body test vt vf) /\
       IF_SAFE_body test vt vf =
         (if is_callable vt then [TrueBranch] else [], branch_result TrueBranch vt) /\
       (forall e, (IF_SAFE_body test vt (PExpr (fun _ => inl e))).2 =
                  branch_result TrueBranch vt)) /\
    (selected_branch test = inr false ->
       (forall vt', IF_SAFE_body test vt' vf = IF_SAFE_body test vt vf) /\
       IF_SAFE_body test vt vf =
         (if is_callable vf then [FalseBranch] else [], branch_result FalseBranch vf)).
Proof.
  intros test vt vf.
  unfold IF_SAFE_body, selected_branch, branch_result.
  destruct (_unwrap_excel_value test) as [e|cond].
  { simpl. split; [|split; [|split]]; intros H; try set_solver; discriminate. }
  destruct (py_bool cond) as [e|[|]].
  - simpl. split; [|split; [|split]]; intros H; try set_solver; discriminate.
  - split; [|split; [|split]].
    + intros _. reflexivity.
    + destruct vt; simpl; intros H; try set_solver;
        destruct (f tt); simpl in H; set_solver.
    + intros _. split; [|split].
      * intros vf'. reflexivity.
      * destruct vt; simpl; try destruct (f tt); reflexivity.
      * intros e. destruct vt; simpl; try destruct (f tt); reflexivity.
    + discriminate.
  - split; [|split; [|split]].
    + destruct vf; simpl; intros H; try set_solver;
        destruct (f tt); simpl in H; set_solver.
    + intros _. reflexivity.
    + discriminate.
    + intros _. split.
      * intros vt'. reflexivity.
      * destruct vf; simpl; try destruct (f tt); reflexivity.
Qed.

Lemma first_excel_error_none3 a b c :
  first_excel_error [a; b; c] = None <->
  is_excel_error a = false /\ is_excel_error b = false /\ is_excel_error c = false.
Proof.
  unfold first_excel_error. cbn [List.find].
  destruct (is_excel_error a), (is_excel_error b), (is_excel_error c);
    split; intros H; try discriminate; try reflexivity;
    repeat match goal with H : _ /\ _ |- _ => destruct H end; try discriminate; auto.
Qed.

Lemma IF_SAFE_no_error test vt vf :
  first_excel_error [test; vt; vf] = None -> IF_SAFE test vt vf = IF_SAFE_body test vt vf.
Proof. intros H. unfold IF_SAFE, validate_args. rewrite H. reflexivity. Qed.

Lemma IF_SAFE_error test vt vf err :
  first_excel_error [test; vt; vf] = Some err -> IF_SAFE test vt vf = ([], inr err).
Proof. intros H. unfold IF_SAFE, validate_args. rewrite H. reflexivity. Qed.

(** C2 does not hold as stated for an argument that is an [ExcelError]:
    [IF_SAFE(True, Expr(1), DivZeroExcelError())] selects the true branch,
    whose result would be [1], yet [validate_args] returns the error held
    in the untaken false branch, and invokes no branch. *)
Lemma IF_SAFE_error_argument_counterexample :
  let err := PError (Some (Some (PStr "#DIV/0!"))) (inr true) in
  let vt := PExpr (fun _ => inr (PInt 1)) in
  selected_branch (PBool true) = inr true /\
  branch_result TrueBranch vt = inr (PInt 1) /\
  IF_SAFE (PBool true) vt err = ([], inr err).
Proof. cbv zeta. split; [reflexivity|]. split; reflexivity. Qed.

(** C2 (as corrected): [IF_SAFE], decorated by [xl.validate_args], returns
    the first of its arguments (test, true branch, false branch) that is an
    [ExcelError], without invoking any branch. Otherwise it invokes at most
    the branch selected by the unwrapped test, never the other one, and its
    result does not depend on the untaken branch (as long as that is no
    [ExcelError]): with a true test it is the unwrapped result of the true
    branch, even when the false branch raises when called; symmetrically
    with a false test. *)
Theorem IF_SAFE_short_circuit :
  forall test vt vf,
    (forall err, first_excel_error [test; vt; vf] = Some err ->
       IF_SAFE test vt vf = ([], inr err)) /\
    (TrueBranch ∈ (IF_SAFE test vt vf).1 -> selected_branch test = inr true) /\
    (FalseBranch ∈ (IF_SAFE test vt vf).1 -> selected_branch test = inr false) /\
    (first_excel_error [test; vt; vf] = None -> selected_branch test = inr true ->
       (forall vf', is_excel_error vf' = false -> IF_SAFE test vt vf' = IF_SAFE test vt vf) /\
       IF_SAFE test vt vf =
         (if is_callable vt then [TrueBranch] else [], branch_result TrueBranch vt) /\
       (forall e, (IF_SAFE test vt (PExpr (fun _ => inl e))).2 =
                  branch_result TrueBranch vt)) /\
    (first_excel_error [test; vt; vf] = None -> selected_branch test = inr false ->
       (forall vt', is_excel_error vt' = false -> IF_SAFE test vt' vf = IF_SAFE test vt vf) /\
       IF_SAFE test vt vf =
         (if is_callable vf then [FalseBranch] else [], branch_result FalseBranch vf)).
Proof.
  intros test vt vf.
  destruct (IF_SAFE_body_short_circuit test vt vf) as (HT & HF & Htrue & Hfalse).
  split; [intros err; apply IF_SAFE_error|].
  destruct (first_excel_error [test; vt; vf]) as [err|] eqn:E.
  - rewrite (IF_SAFE_error _ _ _ _ E). cbn [fst].
    split; [intros H; set_solver|]. split; [intros H; set_solver|].
    split; intros H; discriminate.
  - rewrite (IF_SAFE_no_error _ _ _ E).
    apply first_excel_error_none3 in E as (Et & Ev & Ef).
    split; [exact HT|]. split; [exact HF|]. split.
    + intros _ Hs. destruct (Htrue Hs) as (H1 & H2 & H3). split; [|split].
      * intros vf' Hf'. rewrite IF_SAFE_no_error by (apply first_excel_error_none3; auto).
        apply H1.
      * exact H2.
      * intros e. rewrite IF_SAFE_no_error by (apply first_excel_error_none3; auto).
        apply H3.
    + intros _ Hs. destruct (Hfalse Hs) as (H1 & H2). split.
      * intros vt' Ht'. rewrite IF_SAFE_no_error by (apply first_excel_error_none3; auto).
        apply H1.
      * exact H2.
Qed.

Lemma py_any_digit_ext (isdigit isdigit' : Z -> bool) s :
  Forall (fun ch => isdigit (code_point ch) = isdigit' (code_point ch)) (utf8_chars s) ->
  py_any_digit isdigit s = py_any_digit isdigit' s.
Proof. unfold py_any_digit. induction 1; simpl; congruence. Qed.

(** On a text whose transformed form is ASCII, [coerce_value] reads only
    the ASCII part of the [isdigit] table. *)
Lemma coerce_value_ascii_digits (u : unicode_db) (s : string) :
  (forall cp, (0 <= cp < 128)%Z -> u_isdigit u cp = ascii_isdigit cp) ->
  forallb (fun ch => (0 <=? code_point ch) && (code_point ch <? 128))%Z
    (utf8_chars (coerce_text s)) = true ->
  coerce_value u (PStr s) = coerce_value_with ascii_isdigit (py_float (u_decimal u)) (PStr s).
Proof.
  intros Hu Ha. unfold coerce_value, coerce_value_with. cbv beta iota zeta.
  rewrite (py_any_digit_ext (u_isdigit u) ascii_isdigit); [reflexivity|].
  apply Forall_forall. intros ch Hch.
  apply list_elem_of_In in Hch. rewrite forallb_forall in Ha. specialize (Ha ch Hch).
  apply andb_prop in Ha as [H1 H2]. apply Z.leb_le in H1. apply Z.ltb_lt in H2.
  apply Hu. lia.
Qed.

(** C5: [coerce_value] on the documented inputs, for a Unicode database
    whose [isdigit] on ASCII characters holds for the ten digits only; and
    for any [isdigit] table and [float] parser: a string that is not a
    boolean word and whose transformed text has no digit is returned
    unchanged without consulting the parser, and a string whose parse
    fails is returned unchanged. *)
Theorem coerce_value_spec (u : unicode_db)
    (Hdigits : forall cp, (0 <= cp < 128)%Z -> u_isdigit u cp = ascii_isdigit cp) :
  coerce_value u (PStr "1.000,00") = PFloat 1000 /\
  coerce_value u (PStr "1000") = PFloat 1000 /\
  coerce_value u (PStr "true") = PBool true /\
  coerce_value u (PStr "hello") = PStr "hello" /\
  coerce_value u PNone = PNone /\
  (forall (isdigit : Z -> bool) (float_of : string -> option float) (s : string),
     is_bool_word s = false ->
     (py_any_digit isdigit (coerce_text s) = false ->
        coerce_value_with isdigit float_of (PStr s) = PStr s) /\
     (float_of (coerce_text s) = None ->
        coerce_value_with isdigit float_of (PStr s) = PStr s)).
Proof.
  split; [rewrite coerce_value_ascii_digits by (exact Hdigits || (vm_compute; reflexivity));
          vm_compute; reflexivity|].
  split; [rewrite coerce_value_ascii_digits by (exact Hdigits || (vm_compute; reflexivity));
          vm_compute; reflexivity|].
  split; [vm_compute; reflexivity|].
  split; [rewrite coerce_value_ascii_digits by (exact Hdigits || (vm_compute; reflexivity));
          vm_compute; reflexivity|].
  split; [reflexivity|].
  intros isdigit float_of s Hb. unfold is_bool_word in Hb.
  split; intros H; simpl; rewrite Hb; [rewrite H; reflexivity|].
  destruct (py_any_digit isdigit (coerce_text s)); [rewrite H|]; reflexivity.
Qed.

Lemma coerce_value_spec_witness :
  (forall cp, (0 <= cp < 128)%Z -> u_isdigit unicode_excerpt cp = ascii_isdigit cp) /\
  (coerce_value unicode_excerpt (PStr "1.000,00") = PFloat 1000 /\
   coerce_value unicode_excerpt (PStr "1000") = PFloat 1000 /\
   coerce_value unicode_excerpt (PStr "true") = PBool true /\
   coerce_value unicode_excerpt (PStr "hello") = PStr "hello" /\
   coerce_value unicode_excerpt PNone = PNone /\
   (forall (isdigit : Z -> bool) (float_of : string -> option float) (s : string),
      is_bool_word s = false ->
      (py_any_digit isdigit (coerce_text s) = false ->
         coerce_value_with isdigit float_of (PStr s) = PStr s) /\
      (float_of (coerce_text s) = None ->
         coerce_value_with isdigit float_of (PStr s) = PStr s))).
Proof.
  assert (H : forall cp, (0 <= cp < 128)%Z -> u_isdigit unicode_excerpt cp = ascii_isdigit cp).
  { intros cp Hcp. cbn [u_isdigit unicode_excerpt]. unfold excerpt_decimal, ascii_isdigit.
    assert (E1 : (1632 <=? cp)%Z = false) by (apply Z.leb_gt; lia).
    assert (E2 : (65296 <=? cp)%Z = false) by (apply Z.leb_gt; lia).
    assert (E3 : (cp =? 178)%Z = false) by (apply Z.eqb_neq; lia).
    assert (E4 : (cp =? 179)%Z = false) by (apply Z.eqb_neq; lia).
    assert (E5 : (cp =? 185)%Z = false) by (apply Z.eqb_neq; lia).
    rewrite E1, E2. simpl andb.
    destruct ((48 <=? cp) && (cp <=? 57))%Z; [reflexivity|].
    rewrite E3, E4, E5. reflexivity. }
  exact (conj H (coerce_value_spec unicode_excerpt H)).
Defined.

(** Python's [str.strip], [str.isdigit] and [float] are Unicode-aware:
    ["true"] followed by a NO-BREAK SPACE is the boolean [True], and the
    ARABIC-INDIC DIGIT THREE alone is the number [3.0]. *)
Lemma coerce_value_unicode_examples :
  coerce_value unicode_excerpt
    (PStr ("true" ++ String (ascii_of_nat 194) (String (ascii_of_nat 160) EmptyString)))
    = PBool true /\
  coerce_value unicode_excerpt
    (PStr (String (ascii_of_nat 217) (String (ascii_of_nat 163) EmptyString)))
    = PFloat 3.
Proof. split; vm_compute; reflexivity. Qed.

(** C6: [_unwrap_excel_value] returns a primitive scalar (int, float, str,
    bool) unchanged, so unwrapping it twice is unwrapping it once; an array
    with no element unwraps to [None]. *)
Theorem unwrap_idempotent_on_scalars :
  (forall v, is_primitive v = true -> _unwrap_excel_value v = inr v) /\
  (forall v, is_primitive v = true ->
     match _unwrap_excel_value v with
     | inl e => inl e
     | inr w => _unwrap_excel_value w
     end = _unwrap_excel_value v) /\
  _unwrap_excel_value (PArray []) = inr PNone /\
  (forall rows, Forall (fun r => r = []) rows -> _unwrap_excel_value (PArray rows) = inr PNone).
Proof.
  split; [exact unwrap_primitive|].
  split; [intros v H; rewrite (unwrap_primitive v H); exact (unwrap_primitive v H)|].
  split; [reflexivity | exact first_flat_empty].
Qed.

(* ------------------------------------------------------------------ *)
(** ** Cells, materialisation and the bounds of a worksheet *)

Lemma grows_refl P ws : grows P ws ws.
Proof. split; [reflexivity|]. split; [auto|]. intros k x H. left. exact H. Qed.

Lemma grows_trans (P : nat -> Prop) ws1 ws2 ws3 :
  grows P ws1 ws2 -> grows P ws2 ws3 -> grows P ws1 ws3.
Proof.
  intros (T1 & A1 & B1) (T2 & A2 & B2). split; [congruence|]. split; [auto|].
  intros k x H. destruct (B2 k x H) as [H'|H']; [|right; exact H'].
  destruct (B1 k x H') as [H''|H'']; [left; exact H''| right; exact H''].
Qed.

Lemma grows_mono (P Q : nat -> Prop) ws ws' :
  (forall r, P r -> Q r) -> grows P ws ws' -> grows Q ws ws'.
Proof.
  intros HPQ (T & A & B). split; [exact T|]. split; [exact A|].
  intros k x H. destruct (B k x H) as [H'|(? & ? & ?)]; [left; exact H'|].
  right. auto.
Qed.

Lemma grows_cell_at P ws ws' :
  grows P ws ws' -> forall r c, cell_at ws' r c = cell_at ws r c.
Proof.
  intros (_ & A & B) r c. unfold cell_at.
  destruct (_cells ws !! (r, c)) as [x|] eqn:E.
  - rewrite (A _ _ E). reflexivity.
  - destruct (_cells ws' !! (r, c)) as [y|] eqn:E'; [|reflexivity].
    destruct (B _ _ E') as [H|(-> & _)]; [congruence | reflexivity].
Qed.

Lemma ws_cell_spec ws r c :
  1 <= c ->
  (ws_cell ws r c).1 = cell_at ws r c /\ grows (eq r) ws (ws_cell ws r c).2.
Proof.
  intros Hc. unfold ws_cell, cell_at.
  destruct (_cells ws !! (r, c)) as [x|] eqn:E; simpl.
  - split; [reflexivity | apply grows_refl].
  - split; [reflexivity|]. split; [reflexivity|]. split.
    + intros k x H. simpl. rewrite lookup_insert_ne; [exact H|]. congruence.
    + intros k x H. simpl in H.
      destruct (decide (k = (r, c))) as [->|Hne].
      * rewrite lookup_insert_eq in H. injection H as <-. right. simpl. auto.
      * rewrite lookup_insert_ne in H by congruence. left. exact H.
Qed.

Lemma inputs_of_cols_ext py_str sheet_name ws ws' r cs :
  (forall r c, cell_at ws' r c = cell_at ws r c) ->
  inputs_of_cols py_str sheet_name ws' r cs = inputs_of_cols py_str sheet_name ws r cs.
Proof.
  intros Hc. induction cs as [|c cs IH]; simpl; [reflexivity|].
  unfold input_descriptor. rewrite !Hc, IH. reflexivity.
Qed.

Lemma scan_cols_agrees py_str sheet_name r cs ws :
  Forall (fun c => 1 <= c) cs ->
  scan_agrees (scan_cols py_str sheet_name r cs ws)
              (inputs_of_cols py_str sheet_name ws r cs) (grows (eq r) ws).
Proof.
  intros Hcs. revert ws. induction Hcs as [|c cs Hc Hcs IH]; intros ws; simpl.
  { split; [reflexivity | apply grows_refl]. }
  destruct (ws_cell_spec ws r c Hc) as [Ex Gw1].
  destruct (ws_cell ws r c) as [x ws1] eqn:E. simpl in Ex, Gw1. subst x.
  pose proof (grows_cell_at _ _ _ Gw1) as C1.
  destruct (is_probably_input_cell (cell_at ws r c)) as [e|[|]] eqn:Hi; simpl;
    [reflexivity| |].
  - unfold input_descriptor.
    destruct (py_get_column_letter c) as [e|letter]; simpl; [reflexivity|].
    destruct (ws_cell_spec ws1 r 2 ltac:(lia)) as [El Gw2].
    destruct (ws_cell ws1 r 2) as [l ws2] eqn:E2. simpl in El, Gw2. subst l.
    pose proof (grows_cell_at _ _ _ Gw2) as C2.
    rewrite C1.
    destruct (py_bool (value (cell_at ws r 2))) as [e|t]; simpl; [reflexivity|].
    specialize (IH ws2).
    rewrite (inputs_of_cols_ext py_str sheet_name ws ws2) in IH
      by (intros; rewrite C2, C1; reflexivity).
    destruct (scan_cols py_str sheet_name r cs ws2) as [e|[ds ws3]];
      destruct (inputs_of_cols py_str sheet_name ws r cs) as [e'|ds']; simpl in IH |- *;
      try contradiction; [exact IH|].
    destruct IH as [-> G3]. split; [reflexivity|].
    exact (grows_trans _ _ _ _ Gw1 (grows_trans _ _ _ _ Gw2 G3)).
  - specialize (IH ws1).
    rewrite (inputs_of_cols_ext py_str sheet_name ws ws1) in IH by exact C1.
    destruct (scan_cols py_str sheet_name r cs ws1) as [e|[ds ws3]];
      destruct (inputs_of_cols py_str sheet_name ws r cs) as [e'|ds']; simpl in IH |- *;
      try contradiction; [exact IH|].
    destruct IH as [-> G3]. split; [reflexivity|].
    exact (grows_trans _ _ _ _ Gw1 G3).
Qed.

Lemma wf_worksheet_iff ws :
  wf_worksheet ws <-> forall k x, _cells ws !! k = Some x -> 1 <= k.1 /\ 1 <= k.2.
Proof.
  unfold wf_worksheet. rewrite Forall_forall. split.
  - intros H k x Hk. apply (H (k, x)). apply elem_of_map_to_list. exact Hk.
  - intros H [k x] Hin. apply elem_of_map_to_list in Hin. exact (H k x Hin).
Qed.

Lemma max_key_le (proj : nat * nat -> nat) (m : gmap (nat * nat) cell) n :
  (forall k x, m !! k = Some x -> 1 <= proj k) ->
  (match map (fun kv : (nat * nat) * cell => proj kv.1) (map_to_list m) with
   | [] => 1 | l => list_max l end <= n <->
   1 <= n /\ forall k x, m !! k = Some x -> proj k <= n).
Proof.
  intros Hwf.
  assert (Hall : (forall k x, m !! k = Some x -> proj k <= n) <->
                 List.Forall (fun y => y <= n)
                   (map (fun kv : (nat * nat) * cell => proj kv.1) (map_to_list m))).
  { rewrite List.Forall_map, Forall_forall. split.
    - intros H [k x] Hin. apply elem_of_map_to_list in Hin. exact (H k x Hin).
    - intros H k x Hk. apply (H (k, x)). apply elem_of_map_to_list. exact Hk. }
  rewrite Hall. clear Hall.
  destruct (map_to_list m) as [|[k0 x0] l] eqn:E; cbn -[list_max].
  - split; [intros H; split; [exact H | constructor] | intros [H _]; exact H].
  - assert (Hk0 : 1 <= proj k0).
    { apply (Hwf k0 x0). apply elem_of_map_to_list. rewrite E. left. }
    rewrite list_max_le.
    split; [intros H; split; [inversion H; lia | exact H] | intros [_ H]; exact H].
Qed.

Lemma max_row_le ws n :
  wf_worksheet ws ->
  (max_row ws <= n <-> 1 <= n /\ forall k x, _cells ws !! k = Some x -> k.1 <= n).
Proof.
  rewrite wf_worksheet_iff. intros Hwf. unfold max_row.
  apply (max_key_le fst). intros k x Hk. apply (Hwf k x Hk).
Qed.

Lemma max_column_le ws n :
  wf_worksheet ws ->
  (max_column ws <= n <-> 1 <= n /\ forall k x, _cells ws !! k = Some x -> k.2 <= n).
Proof.
  rewrite wf_worksheet_iff. intros Hwf. unfold max_column.
  apply (max_key_le snd). intros k x Hk. apply (Hwf k x Hk).
Qed.

Lemma key_bounds ws k x :
  wf_worksheet ws -> _cells ws !! k = Some x ->
  1 <= k.1 <= max_row ws /\ 1 <= k.2 <= max_column ws.
Proof.
  intros Hwf Hk.
  pose proof (proj1 (max_row_le ws (max_row ws) Hwf) (le_n _)) as [_ Hr].
  pose proof (proj1 (max_column_le ws (max_column ws) Hwf) (le_n _)) as [_ Hc].
  pose proof (proj1 (wf_worksheet_iff ws) Hwf k x Hk).
  specialize (Hr k x Hk). specialize (Hc k x Hk). lia.
Qed.

Lemma cell_at_beyond ws r c :
  wf_worksheet ws -> max_column ws < c -> cell_at ws r c = empty_cell.
Proof.
  intros Hwf Hc. unfold cell_at.
  destruct (_cells ws !! (r, c)) as [x|] eqn:E; [|reflexivity].
  pose proof (key_bounds ws (r, c) x Hwf E). simpl in *. lia.
Qed.

Lemma cell_at_input_stored ws r c :
  is_probably_input_cell (cell_at ws r c) = inr true ->
  exists x, _cells ws !! (r, c) = Some x.
Proof.
  unfold cell_at. destruct (_cells ws !! (r, c)) as [x|]; [eauto|].
  simpl. discriminate.
Qed.

Lemma wf_grows (P : nat -> Prop) ws ws' :
  wf_worksheet ws -> grows P ws ws' -> (forall r, P r -> 1 <= r) -> wf_worksheet ws'.
Proof.
  rewrite !wf_worksheet_iff. intros Hwf (_ & _ & B) HP k x Hk.
  destruct (B k x Hk) as [H|(_ & Hr & Hc)]; [exact (Hwf k x H)|].
  split; [exact (HP _ Hr) | exact Hc].
Qed.

Lemma grows_max_row (P : nat -> Prop) ws ws' :
  wf_worksheet ws -> grows P ws ws' -> (forall r, P r -> 1 <= r <= max_row ws) ->
  max_row ws' = max_row ws.
Proof.
  intros Hwf G HP.
  assert (Hwf' : wf_worksheet ws') by (apply (wf_grows P ws ws' Hwf G); intros r Hr; apply HP in Hr; lia).
  destruct G as (_ & A & B).
  apply Nat.le_antisymm.
  - apply (max_row_le ws' _ Hwf'). split.
    + pose proof (proj1 (max_row_le ws (max_row ws) Hwf) (le_n _)). tauto.
    + intros k x Hk. destruct (B k x Hk) as [H|(_ & Hr & _)].
      * exact (proj2 (proj1 (key_bounds ws k x Hwf H))).
      * apply HP in Hr. lia.
  - apply (max_row_le ws _ Hwf). split.
    + pose proof (proj1 (max_row_le ws' (max_row ws') Hwf') (le_n _)). tauto.
    + intros k x Hk. exact (proj2 (proj1 (key_bounds ws' k x Hwf' (A k x Hk)))).
Qed.

Lemma grows_max_column (P : nat -> Prop) ws ws' :
  wf_worksheet ws' -> grows P ws ws' -> max_column ws <= max_column ws'.
Proof.
  intros Hwf' G. destruct G as (_ & A & _).
  assert (Hwf : wf_worksheet ws).
  { apply wf_worksheet_iff. intros k x Hk.
    exact (proj1 (wf_worksheet_iff ws') Hwf' k x (A k x Hk)). }
  apply (max_column_le ws _ Hwf). split.
  - pose proof (proj1 (max_column_le ws' (max_column ws') Hwf') (le_n _)). tauto.
  - intros k x Hk. exact (proj2 (proj2 (key_bounds ws' k x Hwf' (A k x Hk)))).
Qed.

Lemma inputs_of_cols_app_noinput py_str sheet_name ws r l1 l2 :
  (forall c, c ∈ l2 -> is_probably_input_cell (cell_at ws r c) = inr false) ->
  inputs_of_cols py_str sheet_name ws r (l1 ++ l2)%list = inputs_of_cols py_str sheet_name ws r l1.
Proof.
  intros H2. induction l1 as [|c l1 IH]; simpl.
  - induction l2 as [|c l2 IH2]; simpl; [reflexivity|].
    rewrite H2 by set_solver. apply IH2. intros c' Hc'. apply H2. set_solver.
  - rewrite IH. reflexivity.
Qed.

Lemma inputs_of_cols_extend py_str sheet_name ws r m m' :
  m <= m' ->
  (forall c, m < c -> is_probably_input_cell (cell_at ws r c) = inr false) ->
  inputs_of_cols py_str sheet_name ws r (seq 1 m') = inputs_of_cols py_str sheet_name ws r (seq 1 m).
Proof.
  intros Hm H. replace m' with (m + (m' - m)) by lia.
  rewrite seq_app. apply inputs_of_cols_app_noinput.
  intros c Hc. apply list_elem_of_In, in_seq in Hc. apply H. lia.
Qed.

Lemma inputs_of_rows_ext py_str sheet_name ws ws' rs m :
  (forall r c, cell_at ws' r c = cell_at ws r c) ->
  inputs_of_rows py_str sheet_name ws' rs m = inputs_of_rows py_str sheet_name ws rs m.
Proof.
  intros Hc. induction rs as [|r rs IH]; simpl; [reflexivity|].
  rewrite (inputs_of_cols_ext py_str sheet_name ws ws' r _ Hc), IH. reflexivity.
Qed.

Lemma inputs_of_rows_extend py_str sheet_name ws rs m m' :
  m <= m' ->
  (forall r c, m < c -> is_probably_input_cell (cell_at ws r c) = inr false) ->
  inputs_of_rows py_str sheet_name ws rs m' = inputs_of_rows py_str sheet_name ws rs m.
Proof.
  intros Hm H. induction rs as [|r rs IH]; simpl; [reflexivity|].
  rewrite (inputs_of_cols_extend py_str sheet_name ws r m m' Hm (H r)), IH. reflexivity.
Qed.

(** Past the last column of the original sheet there is no input cell. *)
Lemma no_input_beyond ws ws' (P : nat -> Prop) :
  wf_worksheet ws -> grows P ws ws' ->
  forall r c, max_column ws < c -> is_probably_input_cell (cell_at ws' r c) = inr false.
Proof.
  intros Hwf G r c Hc. rewrite (grows_cell_at _ _ _ G).
  rewrite (cell_at_beyond ws r c Hwf Hc). reflexivity.
Qed.

Lemma scan_rows_agrees py_str sheet_name ws0 rs ws :
  wf_worksheet ws0 ->
  let P := fun r => 1 <= r <= max_row ws0 in
  grows P ws0 ws -> (forall r, r ∈ rs -> P r) ->
  scan_agrees (scan_rows py_str sheet_name rs ws)
              (inputs_of_rows py_str sheet_name ws0 rs (max_column ws0)) (grows P ws0).
Proof.
  intros Hwf0 P. revert ws. induction rs as [|r rs IH]; intros ws G Hrs; simpl.
  { split; [reflexivity | exact G]. }
  assert (Hwf : wf_worksheet ws) by (apply (wf_grows P ws0 ws Hwf0 G); unfold P; lia).
  pose proof (grows_max_column P ws0 ws Hwf G) as Hm.
  assert (Hcs : Forall (fun c => 1 <= c) (seq 1 (max_column ws))).
  { apply Forall_forall. intros c Hc. apply list_elem_of_In, in_seq in Hc. lia. }
  pose proof (scan_cols_agrees py_str sheet_name r _ ws Hcs) as Hr.
  rewrite (inputs_of_cols_ext py_str sheet_name ws0 ws) in Hr by exact (grows_cell_at _ _ _ G).
  rewrite (inputs_of_cols_extend py_str sheet_name ws0 r (max_column ws0) (max_column ws) Hm)
    in Hr by (intros c Hc; exact (no_input_beyond ws0 ws0 P Hwf0 (grows_refl _ _) r c Hc)).
  destruct (scan_cols py_str sheet_name r (seq 1 (max_column ws)) ws) as [e|[ds1 ws1]];
    destruct (inputs_of_cols py_str sheet_name ws0 r (seq 1 (max_column ws0))) as [e'|ds1'];
    simpl in Hr |- *; try contradiction; [exact Hr|].
  destruct Hr as [<- G1].
  assert (G01 : grows P ws0 ws1).
  { apply (grows_trans _ _ _ _ G). apply (grows_mono (eq r)); [|exact G1].
    intros r' <-. apply Hrs. set_solver. }
  specialize (IH ws1 G01 ltac:(intros r' Hr'; apply Hrs; set_solver)).
  destruct (scan_rows py_str sheet_name rs ws1) as [e|[ds2 ws2]];
    destruct (inputs_of_rows py_str sheet_name ws0 rs (max_column ws0)) as [e'|ds2'];
    simpl in IH |- *; try contradiction; [exact IH|].
  destruct IH as [<- G2]. split; [reflexivity | exact G2].
Qed.

(* ------------------------------------------------------------------ *)
(** ** Looking sheets up in a workbook *)

Lemma list_find_title_cons t w l :
  list_find (fun w => title w = t) (w :: l) =
  if decide (title w = t) then Some (0, w)
  else prod_map S id <$> list_find (fun w => title w = t) l.
Proof. reflexivity. Qed.

Lemma worksheets_cons_ws w wb : worksheets (SheetWorksheet w :: wb) = w :: worksheets wb.
Proof. reflexivity. Qed.

Lemma worksheets_cons_cs t wb : worksheets (SheetChartsheet t :: wb) = worksheets wb.
Proof. reflexivity. Qed.

Lemma list_find_title_replace wb ws ws' t i :
  title ws' = t ->
  list_find (fun w => title w = t) (worksheets wb) = Some (i, ws) ->
  list_find (fun w => title w = t) (worksheets (wb_replace wb ws')) = Some (i, ws').
Proof.
  intros Ht. revert i. induction wb as [|s wb IH]; intros i H; [discriminate|].
  destruct s as [w|ct].
  2:{ unfold wb_replace in *. cbn [map] in *. rewrite worksheets_cons_cs in *.
      exact (IH i H). }
  unfold wb_replace in *. cbn [map] in *. rewrite worksheets_cons_ws in H.
  rewrite list_find_title_cons in H.
  destruct (decide (title w = t)) as [Hw|Hw].
  - injection H as <- <-.
    assert (Heq : String.eqb (title w) (title ws') = true) by (apply String.eqb_eq; congruence).
    rewrite Heq, worksheets_cons_ws, list_find_title_cons.
    rewrite decide_True by exact Ht. reflexivity.
  - destruct (list_find (fun w => title w = t) (worksheets wb)) as [[j x]|] eqn:E;
      [|discriminate].
    simpl in H. injection H as <- <-.
    assert (Heq : String.eqb (title w) (title ws') = false)
      by (apply String.eqb_neq; congruence).
    rewrite Heq, worksheets_cons_ws, list_find_title_cons.
    rewrite decide_False by exact Hw.
    rewrite (IH j eq_refl). reflexivity.
Qed.

Lemma getitem_worksheet wb t ws :
  wb_getitem wb t = Some (SheetWorksheet ws) ->
  (exists i, list_find (fun w => title w = t) (worksheets wb) = Some (i, ws)) /\
  title ws = t /\ SheetWorksheet ws ∈ wb.
Proof.
  unfold wb_getitem.
  destruct (list_find (fun w => title w = t) (worksheets wb)) as [[i w]|] eqn:E.
  - intros H. injection H as <-. split; [eauto|].
    apply list_find_Some in E as (Hi & Ht & _). split; [exact Ht|].
    apply list_elem_of_lookup_2 in Hi. unfold worksheets in Hi.
    apply list_elem_of_omap in Hi as (s & Hs & Hso).
    destruct s; simpl in Hso; [injection Hso as ->; exact Hs | discriminate].
  - case_decide; discriminate.
Qed.

Lemma getitem_in_sheetnames wb t ws :
  wb_getitem wb t = Some (SheetWorksheet ws) -> t ∈ sheetnames wb.
Proof.
  intros H. destruct (getitem_worksheet wb t ws H) as (_ & Ht & Hin).
  unfold sheetnames. apply list_elem_of_fmap. exists (SheetWorksheet ws).
  split; [simpl; congruence | exact Hin].
Qed.

Lemma getitem_replace wb t ws ws' :
  title ws' = t -> wb_getitem wb t = Some (SheetWorksheet ws) ->
  wb_getitem (wb_replace wb ws') t = Some (SheetWorksheet ws').
Proof.
  intros Ht H. pose proof (getitem_worksheet wb t ws H) as [[i E] _].
  unfold wb_getitem. erewrite list_find_title_replace; [reflexivity | exact Ht | exact E].
Qed.

Lemma sheetnames_replace wb ws' :
  sheetnames (wb_replace wb ws') = sheetnames wb.
Proof.
  induction wb as [|s wb IH]; [reflexivity|].
  simpl. rewrite IH. f_equal. destruct s as [w|]; [|reflexivity].
  destruct (String.eqb (title w) (title ws')) eqn:E; [|reflexivity].
  apply String.eqb_eq in E. simpl. congruence.
Qed.

(* ------------------------------------------------------------------ *)
(** ** [discover_inputs] computes the sorted descriptors of the sheet *)

Lemma discover_inputs_agrees py_str py_repr wb sheet_name ws :
  wf_worksheet ws -> wb_getitem wb sheet_name = Some (SheetWorksheet ws) ->
  match discover_inputs py_str py_repr wb sheet_name,
        inputs_of_rows py_str sheet_name ws (seq 1 (max_row ws)) (max_column ws) with
  | inl e, inl e' => e = e'
  | inr (ds, wb'), inr ds0 =>
      ds = merge_sort key_le ds0 /\
      exists ws', grows (fun r => 1 <= r <= max_row ws) ws ws' /\
                  title ws' = sheet_name /\ wb' = wb_replace wb ws'
  | _, _ => False
  end.
Proof.
  intros Hwf Hget. unfold discover_inputs.
  rewrite bool_decide_eq_true_2 by exact (getitem_in_sheetnames _ _ _ Hget).
  simpl. rewrite Hget.
  destruct (getitem_worksheet wb sheet_name ws Hget) as (_ & Ht & _).
  pose proof (scan_rows_agrees py_str sheet_name ws (seq 1 (max_row ws)) ws Hwf
                (grows_refl _ _)) as Hs.
  simpl in Hs. specialize (Hs ltac:(intros r Hr; apply list_elem_of_In, in_seq in Hr; lia)).
  destruct (scan_rows py_str sheet_name (seq 1 (max_row ws)) ws) as [e|[ds ws']];
    destruct (inputs_of_rows py_str sheet_name ws (seq 1 (max_row ws)) (max_column ws))
      as [e'|ds0]; simpl in Hs |- *; try contradiction; [exact Hs|].
  destruct Hs as [<- G]. split; [reflexivity|].
  exists ws'. split; [exact G|]. split; [|reflexivity].
  destruct G as [Gt _]. congruence.
Qed.

Lemma input_descriptor_shape py_str sheet_name ws r c d :
  input_descriptor py_str sheet_name ws r c = inr d -> row d = r /\ col d = c.
Proof.
  unfold input_descriptor. destruct (py_get_column_letter c); [discriminate|].
  destruct (py_bool _); intros H; [discriminate|].
  injection H as <-. split; reflexivity.
Qed.

Lemma count_at_nil r c : count_at [] r c = 0.
Proof. reflexivity. Qed.

Lemma count_at_cons d ds r c :
  count_at (d :: ds) r c = (if decide (row d = r /\ col d = c) then 1 else 0) + count_at ds r c.
Proof. unfold count_at. rewrite filter_cons. case_decide; reflexivity. Qed.

Lemma count_at_app ds1 ds2 r c :
  count_at (ds1 ++ ds2)%list r c = count_at ds1 r c + count_at ds2 r c.
Proof. unfold count_at. rewrite filter_app, length_app. reflexivity. Qed.

Lemma count_at_perm ds1 ds2 r c : ds1 ≡ₚ ds2 -> count_at ds1 r c = count_at ds2 r c.
Proof. intros H. unfold count_at. apply Permutation_length. rewrite H. reflexivity. Qed.

Lemma count_inputs_of_cols py_str sheet_name ws r cs ds :
  NoDup cs -> inputs_of_cols py_str sheet_name ws r cs = inr ds ->
  forall r' c, count_at ds r' c =
    if bool_decide (r' = r /\ c ∈ cs) && input_bit (cell_at ws r' c) then 1 else 0.
Proof.
  intros Hnd. revert ds. induction Hnd as [|c0 cs Hc0 Hnd IH]; intros ds H r' c; simpl in H.
  { injection H as <-. rewrite bool_decide_eq_false_2 by set_solver. reflexivity. }
  destruct (is_probably_input_cell (cell_at ws r c0)) as [e|[|]] eqn:Hi0; [discriminate| |].
  - assert (Hi : input_bit (cell_at ws r c0) = true) by (unfold input_bit; rewrite Hi0; reflexivity).
    destruct (input_descriptor py_str sheet_name ws r c0) as [e|d] eqn:Ed; [discriminate|].
    destruct (inputs_of_cols py_str sheet_name ws r cs) as [e|ds'] eqn:Er; [discriminate|].
    injection H as <-. apply input_descriptor_shape in Ed as [Hr Hc].
    rewrite count_at_cons, (IH ds' eq_refl), Hr, Hc.
    destruct (decide (r' = r)) as [->|Hne]; [destruct (decide (c = c0)) as [->|Hcne]|].
    + rewrite decide_True by auto. rewrite Hi.
      rewrite bool_decide_eq_false_2 by set_solver.
      rewrite bool_decide_eq_true_2 by set_solver. reflexivity.
    + rewrite decide_False by (intros [_ ?]; congruence).
      destruct (decide (c ∈ cs)).
      * rewrite !bool_decide_eq_true_2 by set_solver. reflexivity.
      * rewrite !bool_decide_eq_false_2 by set_solver. reflexivity.
    + rewrite decide_False by (intros [? _]; congruence).
      rewrite !bool_decide_eq_false_2 by (intros [? _]; congruence). reflexivity.
  - assert (Hi : input_bit (cell_at ws r c0) = false) by (unfold input_bit; rewrite Hi0; reflexivity).
    rewrite (IH ds H).
    destruct (decide (r' = r)) as [->|Hne]; [destruct (decide (c = c0)) as [->|Hcne]|].
    + rewrite Hi, !andb_false_r. reflexivity.
    + destruct (decide (c ∈ cs)).
      * rewrite !bool_decide_eq_true_2 by set_solver. reflexivity.
      * rewrite !bool_decide_eq_false_2 by set_solver. reflexivity.
    + rewrite !bool_decide_eq_false_2 by (intros [? _]; congruence). reflexivity.
Qed.

Lemma count_inputs_of_rows py_str sheet_name ws rs m ds :
  NoDup rs -> inputs_of_rows py_str sheet_name ws rs m = inr ds ->
  forall r c, count_at ds r c =
    if bool_decide (r ∈ rs /\ c ∈ seq 1 m) && input_bit (cell_at ws r c) then 1 else 0.
Proof.
  intros Hnd. revert ds. induction Hnd as [|r0 rs Hr0 Hnd IH]; intros ds H r c; simpl in H.
  { injection H as <-. rewrite bool_decide_eq_false_2 by set_solver. reflexivity. }
  destruct (inputs_of_cols py_str sheet_name ws r0 (seq 1 m)) as [e|ds1] eqn:E1; [discriminate|].
  destruct (inputs_of_rows py_str sheet_name ws rs m) as [e|ds2] eqn:E2; [discriminate|].
  injection H as <-. rewrite count_at_app.
  rewrite (count_inputs_of_cols py_str sheet_name ws r0 (seq 1 m) ds1 (NoDup_seq 1 m) E1).
  rewrite (IH ds2 eq_refl).
  destruct (input_bit (cell_at ws r c)); rewrite ?andb_false_r; [|reflexivity].
  rewrite !andb_true_r.
  destruct (decide (c ∈ seq 1 m)); [|rewrite !bool_decide_eq_false_2 by set_solver; reflexivity].
  destruct (decide (r = r0)) as [->|Hne].
  - rewrite (bool_decide_eq_true_2 (r0 = r0 /\ _)) by set_solver.
    rewrite (bool_decide_eq_false_2 (r0 ∈ rs /\ _)) by set_solver.
    rewrite bool_decide_eq_true_2 by set_solver. reflexivity.
  - rewrite (bool_decide_eq_false_2 (r = r0 /\ _)) by (intros [? _]; congruence).
    destruct (decide (r ∈ rs)).
    + rewrite !bool_decide_eq_true_2 by set_solver. reflexivity.
    + rewrite !bool_decide_eq_false_2 by set_solver. reflexivity.
Qed.

(** C4: on a well-formed worksheet, [discover_inputs] returns exactly one
    descriptor for each cell that is non-empty, not a formula and has a
    solid fill of theme colour 7, none for a formula or empty cell, the
    descriptors sorted by [(row, col)]; calling it again on the workbook
    as the call left it returns the same descriptors. *)
Theorem discover_inputs_exact_sorted_stable (py_str : pyval -> string) (py_repr : string -> string)
    (wb : workbook) (sheet_name : string) (ws : worksheet)
    (ds : list descriptor) (wb' : workbook) :
  wf_worksheet ws ->
  wb_getitem wb sheet_name = Some (SheetWorksheet ws) ->
  discover_inputs py_str py_repr wb sheet_name = inr (ds, wb') ->
  (forall r c, count_at ds r c =
     match is_probably_input_cell (cell_at ws r c) with inr true => 1 | _ => 0 end) /\
  (forall r c, is_formula (value (cell_at ws r c)) || is_empty_value (value (cell_at ws r c)) = true ->
     count_at ds r c = 0) /\
  Sorted key_le ds /\
  (exists wb'', discover_inputs py_str py_repr wb' sheet_name = inr (ds, wb'')).
Proof.
  intros Hwf Hget Hd.
  pose proof (discover_inputs_agrees py_str py_repr wb sheet_name ws Hwf Hget) as A.
  rewrite Hd in A.
  destruct (inputs_of_rows py_str sheet_name ws (seq 1 (max_row ws)) (max_column ws))
    as [e|ds0] eqn:E0; [contradiction|].
  destruct A as [-> (ws' & G & Ht' & ->)].
  assert (Hcount : forall r c, count_at (merge_sort key_le ds0) r c =
                     match is_probably_input_cell (cell_at ws r c) with
                     | inr true => 1 | _ => 0 end).
  { intros r c. rewrite (count_at_perm _ ds0) by apply merge_sort_Permutation.
    rewrite (count_inputs_of_rows py_str sheet_name ws _ _ ds0 (NoDup_seq 1 _) E0).
    unfold input_bit.
    destruct (is_probably_input_cell (cell_at ws r c)) as [e|[|]] eqn:Hi;
      rewrite ?andb_false_r; [reflexivity| |reflexivity].
    destruct (cell_at_input_stored ws r c Hi) as [x Hx].
    pose proof (key_bounds ws (r, c) x Hwf Hx) as Hb. simpl in Hb.
    rewrite bool_decide_eq_true_2; [reflexivity|].
    split; apply list_elem_of_In, in_seq; lia. }
  split; [exact Hcount|].
  split.
  { intros r c Hfe. rewrite Hcount. unfold is_probably_input_cell.
    destruct (is_empty_value (value (cell_at ws r c))); [reflexivity|].
    destruct (is_formula (value (cell_at ws r c))); [reflexivity | discriminate]. }
  split; [apply Sorted_merge_sort; apply _|].
  set (P := fun r => 1 <= r <= max_row ws) in G.
  assert (Hwf' : wf_worksheet ws') by (apply (wf_grows P ws ws' Hwf G); unfold P; lia).
  assert (Hget' : wb_getitem (wb_replace wb ws') sheet_name = Some (SheetWorksheet ws'))
    by exact (getitem_replace wb sheet_name ws ws' Ht' Hget).
  pose proof (discover_inputs_agrees py_str py_repr (wb_replace wb ws') sheet_name ws' Hwf' Hget') as A'.
  rewrite (grows_max_row P ws ws' Hwf G) in A' by (unfold P; lia).
  rewrite (inputs_of_rows_ext py_str sheet_name ws ws') in A' by exact (grows_cell_at _ _ _ G).
  rewrite (inputs_of_rows_extend py_str sheet_name ws _ (max_column ws) (max_column ws'))
    in A' by (exact (grows_max_column P ws ws' Hwf' G) ||
              (intros r c Hc; exact (no_input_beyond ws ws P Hwf (grows_refl _ _) r c Hc))).
  rewrite E0 in A'.
  destruct (discover_inputs py_str py_repr (wb_replace wb ws') sheet_name) as [e|[ds'' wb'']];
    [contradiction|].
  destruct A' as [-> _]. exists wb''. reflexivity.
Qed.

Lemma discover_inputs_exact_sorted_stable_witness :
  wf_worksheet demo_ws /\
  wb_getitem demo_wb "S" = Some (SheetWorksheet demo_ws) /\
  discover_inputs demo_str demo_repr demo_wb "S" = inr ([demo_descriptor], wb_replace demo_wb demo_ws_after) /\
  ((forall r c, count_at [demo_descriptor] r c =
                match is_probably_input_cell (cell_at demo_ws r c) with
                | inr true => 1 | _ => 0 end) /\
   (forall r c, is_formula (value (cell_at demo_ws r c)) || is_empty_value (value (cell_at demo_ws r c)) = true ->
      count_at [demo_descriptor] r c = 0) /\
   Sorted key_le [demo_descriptor] /\
   (exists wb'', discover_inputs demo_str demo_repr (wb_replace demo_wb demo_ws_after) "S" =
                 inr ([demo_descriptor], wb''))).
Proof.
  assert (H1 : wf_worksheet demo_ws).
  { unfold wf_worksheet. apply (bool_decide_unpack _). vm_compute. reflexivity. }
  assert (H2 : wb_getitem demo_wb "S" = Some (SheetWorksheet demo_ws)).
  { vm_compute. reflexivity. }
  assert (H3 : discover_inputs demo_str demo_repr demo_wb "S" =
               inr ([demo_descriptor], wb_replace demo_wb demo_ws_after)).
  { vm_compute. reflexivity. }
  exact (conj H1 (conj H2 (conj H3
    (discover_inputs_exact_sorted_stable demo_str demo_repr demo_wb "S" demo_ws _ _ H1 H2 H3)))).
Defined.

(* ------------------------------------------------------------------ *)
(** ** Labels and the missing-sheet error *)

Lemma py_get_column_letter_inr c l :
  py_get_column_letter c = inr l -> l = get_column_letter c /\ 1 <= c <= 18278.
Proof.
  unfold py_get_column_letter.
  destruct (1 <=? c) eqn:E1, (c <=? 18278) eqn:E2; simpl; intros H; try discriminate.
  injection H as <-. apply Nat.leb_le in E1, E2. auto.
Qed.


Lemma input_descriptor_label py_str sheet_name ws r c d :
  input_descriptor py_str sheet_name ws r c = inr d ->
  row d = r /\ col d = c /\
  address d = sheet_name ++ "!" ++ get_column_letter c ++ pretty (N.of_nat r) /\
  label d = match py_bool (value (cell_at ws r 2)) with
            | inr true => py_strip (py_str (value (cell_at ws r 2)))
            | _ => address d
            end.
Proof.
  unfold input_descriptor.
  destruct (py_get_column_letter c) as [e|l] eqn:Eg; [discriminate|].
  apply py_get_column_letter_inr in Eg as [-> _].
  destruct (py_bool (value (cell_at ws r 2))) as [e|[|]];
    intros H; try discriminate; injection H as <-; simpl; auto.
Qed.

Lemma inputs_of_cols_elem py_str sheet_name ws r cs ds d :
  inputs_of_cols py_str sheet_name ws r cs = inr ds -> d ∈ ds ->
  exists c, input_descriptor py_str sheet_name ws r c = inr d.
Proof.
  revert ds. induction cs as [|c cs IH]; intros ds H Hd; simpl in H.
  { injection H as <-. set_solver. }
  destruct (is_probably_input_cell (cell_at ws r c)) as [e|[|]];
    [discriminate| |exact (IH ds H Hd)].
  destruct (input_descriptor py_str sheet_name ws r c) as [e|d0] eqn:Ed; [discriminate|].
  destruct (inputs_of_cols py_str sheet_name ws r cs) as [e|ds'] eqn:Er; [discriminate|].
  injection H as <-. apply elem_of_cons in Hd as [->|Hd]; [eauto|].
  exact (IH ds' eq_refl Hd).
Qed.

Lemma inputs_of_rows_elem py_str sheet_name ws rs m ds d :
  inputs_of_rows py_str sheet_name ws rs m = inr ds -> d ∈ ds ->
  exists r c, input_descriptor py_str sheet_name ws r c = inr d.
Proof.
  revert ds. induction rs as [|r rs IH]; intros ds H Hd; simpl in H.
  { injection H as <-. set_solver. }
  destruct (inputs_of_cols py_str sheet_name ws r (seq 1 m)) as [e|ds1] eqn:E1; [discriminate|].
  destruct (inputs_of_rows py_str sheet_name ws rs m) as [e|ds2] eqn:E2; [discriminate|].
  injection H as <-. apply elem_of_app in Hd as [Hd|Hd].
  - destruct (inputs_of_cols_elem _ _ _ _ _ _ _ E1 Hd) as [c Hc]. eauto.
  - exact (IH ds2 eq_refl Hd).
Qed.




(** C9, the counterexample: [B1] holds the value [0], present but falsy;
    the label of the input [C1] is its address ["S!C1"], not ["0"]. *)
Lemma discover_inputs_label_counterexample :
  value (cell_at demo_ws_zero 1 2) = PInt 0 /\
  py_strip (demo_str (PInt 0)) = "0" /\
  exists wb', discover_inputs demo_str demo_repr demo_wb_zero "S" =
              inr ([Descriptor "S!C1" "S!C1" (PInt 5) 1 3], wb').
Proof.
  split; [reflexivity|]. split; [reflexivity|].
  eexists. vm_compute. reflexivity.
Qed.

(** C9, as the code has it: the label of the input at row [r] is the
    stripped [str()] of the value in column B of row [r] when that value is
    truthy, and the input's own address ["sheet!<col><row>"] otherwise
    ([None], [''], [0], [False]). *)
Theorem discover_inputs_label (py_str : pyval -> string) (py_repr : string -> string)
    (wb : workbook) (sheet_name : string) (ws : worksheet)
    (ds : list descriptor) (wb' : workbook) :
  wf_worksheet ws ->
  wb_getitem wb sheet_name = Some (SheetWorksheet ws) ->
  discover_inputs py_str py_repr wb sheet_name = inr (ds, wb') ->
  forall d, d ∈ ds ->
    address d = sheet_name ++ "!" ++ get_column_letter (col d) ++ pretty (N.of_nat (row d)) /\
    label d = match py_bool (value (cell_at ws (row d) 2)) with
              | inr true => py_strip (py_str (value (cell_at ws (row d) 2)))
              | _ => address d
              end.
Proof.
  intros Hwf Hget Hd d Hin.
  pose proof (discover_inputs_agrees py_str py_repr wb sheet_name ws Hwf Hget) as A.
  rewrite Hd in A.
  destruct (inputs_of_rows py_str sheet_name ws (seq 1 (max_row ws)) (max_column ws))
    as [e|ds0] eqn:E0; [contradiction|].
  destruct A as [-> _].
  assert (Hin0 : d ∈ ds0).
  { rewrite <- (merge_sort_Permutation key_le ds0). exact Hin. }
  destruct (inputs_of_rows_elem _ _ _ _ _ _ _ E0 Hin0) as (r & c & Hrc).
  destruct (input_descriptor_label _ _ _ _ _ _ Hrc) as (-> & -> & Ha & Hl).
  split; assumption.
Qed.

Lemma discover_inputs_label_witness :
  wf_worksheet demo_ws /\
  wb_getitem demo_wb "S" = Some (SheetWorksheet demo_ws) /\
  discover_inputs demo_str demo_repr demo_wb "S" = inr ([demo_descriptor], wb_replace demo_wb demo_ws_after) /\
  demo_descriptor ∈ [demo_descriptor] /\
  (address demo_descriptor =
     "S" ++ "!" ++ get_column_letter (col demo_descriptor) ++ pretty (N.of_nat (row demo_descriptor)) /\
   label demo_descriptor =
     match py_bool (value (cell_at demo_ws (row demo_descriptor) 2)) with
     | inr true => py_strip (demo_str (value (cell_at demo_ws (row demo_descriptor) 2)))
     | _ => address demo_descriptor
     end).
Proof.
  assert (H1 : wf_worksheet demo_ws).
  { unfold wf_worksheet. apply (bool_decide_unpack _). vm_compute. reflexivity. }
  assert (H2 : wb_getitem demo_wb "S" = Some (SheetWorksheet demo_ws)).
  { vm_compute. reflexivity. }
  assert (H3 : discover_inputs demo_str demo_repr demo_wb "S" =
               inr ([demo_descriptor], wb_replace demo_wb demo_ws_after)).
  { vm_compute. reflexivity. }
  assert (H4 : demo_descriptor ∈ [demo_descriptor]) by set_solver.
  exact (conj H1 (conj H2 (conj H3 (conj H4
    (discover_inputs_label demo_str demo_repr demo_wb "S" demo_ws _ _ H1 H2 H3 _ H4))))).
Defined.




(* ------------------------------------------------------------------ *)
(** ** Cell addresses are injective *)

Lemma str_app_nil_l s : EmptyString ++ s = s.
Proof. reflexivity. Qed.

Lemma str_app_cons a s t : String a s ++ t = String a (s ++ t).
Proof. reflexivity. Qed.

Lemma str_all_app p s1 s2 : str_all p (s1 ++ s2) = str_all p s1 && str_all p s2.
Proof. induction s1 as [|ch s1 IH]; simpl; [reflexivity|]. rewrite IH. apply andb_assoc. Qed.

Lemma str_all_impl (p q : ascii -> bool) s :
  (forall ch, p ch = true -> q ch = true) -> str_all p s = true -> str_all q s = true.
Proof.
  intros Hpq. induction s as [|ch s IH]; simpl; [reflexivity|].
  intros [H1 H2]%andb_prop. rewrite (Hpq ch H1). exact (IH H2).
Qed.

Definition not_bang (ch : ascii) : bool := negb (Ascii.eqb ch "!"%char).

(** The sheet title and the coordinate split at the last ["!"]. *)
Lemma split_at_bang s1 s2 c1 c2 :
  str_all not_bang c1 = true -> str_all not_bang c2 = true ->
  s1 ++ String "!"%char c1 = s2 ++ String "!"%char c2 -> s1 = s2 /\ c1 = c2.
Proof.
  intros H1 H2. revert s2. induction s1 as [|a s1 IH]; intros [|b s2] E; simpl in E.
  - injection E as ->. auto.
  - injection E as <- E. rewrite E, str_all_app in H1. simpl in H1.
    rewrite andb_false_r in H1. discriminate.
  - injection E as -> E. rewrite <- E, str_all_app in H2. simpl in H2.
    rewrite andb_false_r in H2. discriminate.
  - injection E as -> E. destruct (IH s2 E) as [-> ->]. auto.
Qed.

(** Letters and digits split where the digits begin. *)
Lemma split_letters_digits l1 l2 d1 d2 :
  str_all py_isupper l1 = true -> str_all py_isupper l2 = true ->
  str_all is_ascii_digit d1 = true -> str_all is_ascii_digit d2 = true ->
  l1 ++ d1 = l2 ++ d2 -> l1 = l2 /\ d1 = d2.
Proof.
  intros U1 U2 D1 D2. revert l2 U2. induction l1 as [|a l1 IH]; intros [|b l2] U2 E;
    rewrite ?str_app_nil_l, ?str_app_cons in E; cbn [str_all] in *.
  - auto.
  - rewrite E in D1. simpl in D1. apply andb_prop in D1 as [D _]. apply andb_prop in U2 as [U _].
    unfold is_ascii_digit, py_isupper in *. apply andb_prop in D as [_ D].
    apply andb_prop in U as [U _]. apply Nat.leb_le in D. apply Nat.leb_le in U. lia.
  - rewrite <- E in D2. simpl in D2. apply andb_prop in D2 as [D _]. apply andb_prop in U1 as [U _].
    unfold is_ascii_digit, py_isupper in *. apply andb_prop in D as [_ D].
    apply andb_prop in U as [U _]. apply Nat.leb_le in D. apply Nat.leb_le in U. lia.
  - injection E as -> E. apply andb_prop in U1 as [_ U1]. apply andb_prop in U2 as [_ U2].
    destruct (IH U1 l2 U2 E) as [-> ->]. auto.
Qed.

Lemma column_letters_S fuel n acc :
  column_letters (S fuel) n acc =
  if n =? 0 then acc
  else column_letters fuel ((n - 1) / 26) (String (ascii_of_nat (65 + (n - 1) mod 26)) acc).
Proof. reflexivity. Qed.

Lemma column_letters_upper fuel n acc :
  str_all py_isupper acc = true -> str_all py_isupper (column_letters fuel n acc) = true.
Proof.
  revert n acc. induction fuel as [|fuel IH]; intros n acc Hacc; [exact Hacc|].
  rewrite column_letters_S.
  destruct (n =? 0); [exact Hacc|]. apply IH. cbn [str_all]. rewrite Hacc, andb_true_r.
  pose proof (Nat.mod_upper_bound (n - 1) 26 ltac:(lia)).
  unfold py_isupper. rewrite nat_ascii_embedding by lia.
  apply andb_true_intro. split; apply Nat.leb_le; lia.
Qed.

Lemma column_letters_value fuel n acc :
  n <= fuel ->
  col_value (column_letters fuel n acc) = n * 26 ^ String.length acc + col_value acc.
Proof.
  revert n acc. induction fuel as [|fuel IH]; intros n acc Hn.
  { replace n with 0 by lia. reflexivity. }
  rewrite column_letters_S.
  destruct (n =? 0) eqn:E0; [apply Nat.eqb_eq in E0; subst n; reflexivity|].
  apply Nat.eqb_neq in E0.
  pose proof (Nat.mod_upper_bound (n - 1) 26 ltac:(lia)) as Hm.
  pose proof (Nat.div_mod_eq (n - 1) 26) as Hd.
  assert (Hq : (n - 1) / 26 <= fuel).
  { apply Nat.Div0.div_le_upper_bound; lia. }
  rewrite IH by exact Hq. cbn [col_value String.length]. rewrite nat_ascii_embedding by lia.
  rewrite Nat.pow_succ_r'.
  set (q := (n - 1) / 26) in *. set (d := (n - 1) mod 26) in *. clearbody q d.
  generalize (col_value acc) (26 ^ String.length acc). intros V P.
  assert (En : n = 26 * q + d + 1) by lia. subst n. nia.
Qed.

Lemma get_column_letter_value c : col_value (get_column_letter c) = c.
Proof.
  unfold get_column_letter. rewrite column_letters_value by lia. simpl. lia.
Qed.

Lemma get_column_letter_inj c1 c2 : get_column_letter c1 = get_column_letter c2 -> c1 = c2.
Proof.
  intros E. rewrite <- (get_column_letter_value c1), <- (get_column_letter_value c2), E.
  reflexivity.
Qed.

Lemma get_column_letter_upper c : str_all py_isupper (get_column_letter c) = true.
Proof. apply column_letters_upper. reflexivity. Qed.

Lemma pretty_N_char_digit x : is_ascii_digit (pretty_N_char x) = true.
Proof.
  unfold pretty_N_char.
  repeat match goal with |- context [match ?y with _ => _ end] => destruct y end;
    reflexivity.
Qed.

Lemma pretty_N_go_digits x s :
  str_all is_ascii_digit s = true -> str_all is_ascii_digit (pretty_N_go x s) = true.
Proof.
  revert s. induction (N.lt_wf_0 x) as [x _ IH]; intros s Hs.
  destruct (decide (x = 0)%N) as [->|Hx]; [rewrite pretty_N_go_0; exact Hs|].
  rewrite pretty_N_go_step by lia. apply IH.
  - apply N.div_lt; lia.
  - simpl. rewrite pretty_N_char_digit. exact Hs.
Qed.

Lemma pretty_N_digits (x : N) : str_all is_ascii_digit (pretty x) = true.
Proof.
  unfold pretty, pretty_N. destruct (decide (x = 0)%N); [reflexivity|].
  apply pretty_N_go_digits. reflexivity.
Qed.

Lemma coordinate_not_bang r c : str_all not_bang (coordinate r c) = true.
Proof.
  unfold coordinate. rewrite str_all_app. apply andb_true_intro. split.
  - apply (str_all_impl py_isupper); [|apply get_column_letter_upper].
    intros ch H. unfold not_bang.
    destruct (Ascii.eqb_spec ch "!"%char) as [->|]; [discriminate H | reflexivity].
  - apply (str_all_impl is_ascii_digit); [|apply pretty_N_digits].
    intros ch H. unfold not_bang.
    destruct (Ascii.eqb_spec ch "!"%char) as [->|]; [discriminate H | reflexivity].
Qed.

(** [f"{sheet}!{cell.coordinate}"] determines the sheet, row and column. *)
Lemma address_inj t1 t2 r1 r2 c1 c2 :
  t1 ++ "!" ++ coordinate r1 c1 = t2 ++ "!" ++ coordinate r2 c2 ->
  t1 = t2 /\ r1 = r2 /\ c1 = c2.
Proof.
  intros E. apply split_at_bang in E as [-> E]; try apply coordinate_not_bang.
  unfold coordinate in E.
  apply split_letters_digits in E as [El Ed];
    try apply get_column_letter_upper; try apply pretty_N_digits.
  apply get_column_letter_inj in El. apply (inj pretty) in Ed. split; [reflexivity|]. lia.
Qed.

(* ------------------------------------------------------------------ *)
(** ** Where [build_model_from_workbook] stores each cell *)

Lemma build_cell_other ft sheet r c v mdl a :
  a <> sheet ++ "!" ++ coordinate r c ->
  cells (build_cell ft sheet r c v mdl) !! a = cells mdl !! a.
Proof.
  intros Ha. unfold build_cell.
  destruct v; try reflexivity; try destruct (is_formula _); cbn [cells];
    apply lookup_insert_ne; congruence.
Qed.

Lemma build_cell_hit ft sheet r c v mdl :
  cells mdl !! (sheet ++ "!" ++ coordinate r c) = None ->
  cells (build_cell ft sheet r c v mdl) !! (sheet ++ "!" ++ coordinate r c) =
  cells (build_cell ft sheet r c v empty_model) !! (sheet ++ "!" ++ coordinate r c).
Proof.
  intros Hn. unfold build_cell.
  destruct v; try exact Hn; try destruct (is_formula _); cbn [cells empty_model];
    rewrite !lookup_insert_eq; reflexivity.
Qed.

Lemma build_row_app ft ws r l1 l2 mdl :
  build_row ft ws r (l1 ++ l2) mdl = build_row ft ws r l2 (build_row ft ws r l1 mdl).
Proof. revert mdl. induction l1 as [|c l1 IH]; intros mdl; simpl; [reflexivity|apply IH]. Qed.

Lemma build_rows_app ft ws l1 l2 mdl :
  build_rows ft ws (l1 ++ l2) mdl = build_rows ft ws l2 (build_rows ft ws l1 mdl).
Proof. revert mdl. induction l1 as [|r l1 IH]; intros mdl; simpl; [reflexivity|apply IH]. Qed.

Lemma build_sheets_app ft l1 l2 mdl :
  build_sheets ft (l1 ++ l2) mdl = build_sheets ft l2 (build_sheets ft l1 mdl).
Proof. revert mdl. induction l1 as [|w l1 IH]; intros mdl; simpl; [reflexivity|apply IH]. Qed.

Lemma build_row_other ft ws r cs mdl a :
  (forall c, c ∈ cs -> a <> title ws ++ "!" ++ coordinate r c) ->
  cells (build_row ft ws r cs mdl) !! a = cells mdl !! a.
Proof.
  revert mdl. induction cs as [|c cs IH]; intros mdl Ha; simpl; [reflexivity|].
  rewrite IH by (intros c' Hc'; apply Ha; set_solver).
  apply build_cell_other. apply Ha. set_solver.
Qed.

Lemma build_rows_other ft ws rs mdl a :
  (forall r c, r ∈ rs -> c ∈ seq 1 (max_column ws) -> a <> title ws ++ "!" ++ coordinate r c) ->
  cells (build_rows ft ws rs mdl) !! a = cells mdl !! a.
Proof.
  revert mdl. induction rs as [|r rs IH]; intros mdl Ha; simpl; [reflexivity|].
  rewrite IH by (intros r' c' Hr' Hc'; apply Ha; [set_solver|exact Hc']).
  apply build_row_other. intros c Hc. apply Ha; [set_solver|exact Hc].
Qed.

Lemma build_sheets_other ft wss mdl a :
  (forall ws r c, ws ∈ wss -> r ∈ seq 1 (max_row ws) -> c ∈ seq 1 (max_column ws) ->
     a <> title ws ++ "!" ++ coordinate r c) ->
  cells (build_sheets ft wss mdl) !! a = cells mdl !! a.
Proof.
  revert mdl. induction wss as [|w wss IH]; intros mdl Ha; simpl; [reflexivity|].
  rewrite IH by (intros ws' r' c' Hw; apply Ha; set_solver).
  apply build_rows_other. intros r c Hr Hc. apply Ha; [set_solver|exact Hr|exact Hc].
Qed.

Lemma build_row_hit ft ws r c cs mdl :
  NoDup cs -> c ∈ cs ->
  cells mdl !! (title ws ++ "!" ++ coordinate r c) = None ->
  cells (build_row ft ws r cs mdl) !! (title ws ++ "!" ++ coordinate r c) =
  cells (build_cell ft (title ws) r c (value (cell_at ws r c)) empty_model)
    !! (title ws ++ "!" ++ coordinate r c).
Proof.
  intros Hnd Hc Hn. apply list_elem_of_split in Hc as (l1 & l2 & ->).
  apply NoDup_app in Hnd as (_ & Hdis & Hnd2). apply NoDup_cons in Hnd2 as [Hc2 _].
  rewrite build_row_app. simpl.
  rewrite build_row_other.
  2:{ intros c' Hc' E. apply address_inj in E as (_ & _ & ->). contradiction. }
  apply build_cell_hit. rewrite build_row_other; [exact Hn|].
  intros c' Hc' E. apply address_inj in E as (_ & _ & ->).
  apply (Hdis c'); [exact Hc'|set_solver].
Qed.

Lemma build_rows_hit ft ws r c rs mdl :
  NoDup rs -> r ∈ rs -> c ∈ seq 1 (max_column ws) ->
  cells mdl !! (title ws ++ "!" ++ coordinate r c) = None ->
  cells (build_rows ft ws rs mdl) !! (title ws ++ "!" ++ coordinate r c) =
  cells (build_cell ft (title ws) r c (value (cell_at ws r c)) empty_model)
    !! (title ws ++ "!" ++ coordinate r c).
Proof.
  intros Hnd Hr Hc Hn. apply list_elem_of_split in Hr as (l1 & l2 & ->).
  apply NoDup_app in Hnd as (_ & Hdis & Hnd2). apply NoDup_cons in Hnd2 as [Hr2 _].
  rewrite build_rows_app. simpl.
  rewrite build_rows_other.
  2:{ intros r' c' Hr' _ E. apply address_inj in E as (_ & -> & _). contradiction. }
  apply build_row_hit; [apply NoDup_seq|exact Hc|].
  rewrite build_rows_other; [exact Hn|].
  intros r' c' Hr' _ E. apply address_inj in E as (_ & -> & _).
  apply (Hdis r'); [exact Hr'|set_solver].
Qed.

Lemma build_sheets_cons ft w wss mdl :
  build_sheets ft (w :: wss) mdl = build_sheets ft wss (build_rows ft w (seq 1 (max_row w)) mdl).
Proof. reflexivity. Qed.

Lemma worksheet_titles_in wb x : x ∈ map title (worksheets wb) -> x ∈ sheetnames wb.
Proof.
  intros (w & -> & Hw)%list_elem_of_fmap.
  unfold worksheets in Hw. apply list_elem_of_omap in Hw as (s & Hs & Ho).
  unfold sheetnames. apply list_elem_of_fmap. exists s. split; [|exact Hs].
  destruct s; simpl in Ho; [|discriminate]. injection Ho as ->. reflexivity.
Qed.

Lemma NoDup_worksheet_titles wb : NoDup (sheetnames wb) -> NoDup (map title (worksheets wb)).
Proof.
  induction wb as [|s wb IH]; intros Hnd; [constructor|].
  unfold sheetnames in Hnd. rewrite map_cons in Hnd. apply NoDup_cons in Hnd as [Hn Hnd].
  destruct s as [w|t].
  - rewrite worksheets_cons_ws, map_cons. constructor; [|exact (IH Hnd)].
    intros Hin. apply Hn. exact (worksheet_titles_in wb _ Hin).
  - rewrite worksheets_cons_cs. exact (IH Hnd).
Qed.

Lemma NoDup_map_eq {A B} (f : A -> B) (l : list A) x y :
  NoDup (map f l) -> x ∈ l -> y ∈ l -> f x = f y -> x = y.
Proof.
  induction l as [|z l IH]; intros Hnd Hx Hy E; [set_solver|].
  rewrite map_cons in Hnd. apply NoDup_cons in Hnd as [Hz Hnd].
  apply elem_of_cons in Hx as [->|Hx]; apply elem_of_cons in Hy as [->|Hy]; auto.
  - exfalso. apply Hz. rewrite E. apply list_elem_of_fmap. eauto.
  - exfalso. apply Hz. rewrite <- E. apply list_elem_of_fmap. eauto.
Qed.

Lemma in_seq_1 x n : x ∈ seq 1 n <-> 1 <= x <= n.
Proof. rewrite list_elem_of_In, in_seq. lia. Qed.

(** After the build, the entry at the address of the cell [(r, c)] of a
    worksheet is the one the loop body makes for that cell alone. *)
Lemma model_cell_lookup ft wb ws r c :
  NoDup (sheetnames wb) -> ws ∈ worksheets wb -> wf_worksheet ws ->
  cells (build_model_from_workbook ft wb) !! (title ws ++ "!" ++ coordinate r c) =
  cells (build_cell ft (title ws) r c (value (cell_at ws r c)) empty_model)
    !! (title ws ++ "!" ++ coordinate r c).
Proof.
  intros Hnd Hws Hwf. pose proof (NoDup_worksheet_titles wb Hnd) as Ht.
  unfold build_model_from_workbook.
  destruct (decide (r ∈ seq 1 (max_row ws) /\ c ∈ seq 1 (max_column ws))) as [[Hr Hc]|Hout].
  - apply list_elem_of_split in Hws as (w1 & w2 & Hsplit). rewrite Hsplit in Ht |- *.
    rewrite map_app, map_cons in Ht. apply NoDup_app in Ht as (_ & Hdis & Ht2).
    apply NoDup_cons in Ht2 as [Hw2 _].
    rewrite build_sheets_app, build_sheets_cons, build_sheets_other.
    2:{ intros w' r' c' Hw' _ _ E. apply address_inj in E as (E & _ & _).
        apply Hw2. rewrite E. apply list_elem_of_fmap. eauto. }
    apply build_rows_hit; [apply NoDup_seq|exact Hr|exact Hc|].
    rewrite build_sheets_other; [apply lookup_empty|].
    intros w' r' c' Hw' _ _ E. apply address_inj in E as (E & _ & _).
    apply (Hdis (title w')); [apply list_elem_of_fmap; eauto|]. rewrite <- E. set_solver.
  - assert (He : cell_at ws r c = empty_cell).
    { unfold cell_at. destruct (_cells ws !! (r, c)) as [x|] eqn:E; [|reflexivity].
      exfalso. apply Hout. destruct (key_bounds ws (r, c) x Hwf E) as [B1 B2].
      rewrite !in_seq_1. simpl in B1, B2. lia. }
    rewrite He. cbn [value empty_cell build_cell cells empty_model].
    rewrite lookup_empty. apply build_sheets_other.
    intros w' r' c' Hw' Hr' Hc' E. apply address_inj in E as (E & <- & <-).
    assert (w' = ws) as ->.
    { apply (NoDup_map_eq title (worksheets wb)); auto. }
    apply Hout. split; assumption.
Qed.

Lemma literal_cell_entry ft sheet r c v :
  v <> PNone -> is_formula v = false ->
  cells (build_cell ft sheet r c v empty_model) !! (sheet ++ "!" ++ coordinate r c) =
  Some (XLCell (sheet ++ "!" ++ coordinate r c) v None).
Proof.
  intros Hn Hf. unfold build_cell.
  destruct v; try congruence; rewrite Hf; cbn [cells]; apply lookup_insert_eq.
Qed.

Lemma build_cell_entry_none ft sheet r c v :
  cells (build_cell ft sheet r c v empty_model) !! (sheet ++ "!" ++ coordinate r c) = None <->
  v = PNone.
Proof.
  unfold build_cell. destruct v; [split; reflexivity|..];
    try destruct (is_formula _); cbn [cells]; rewrite lookup_insert_eq;
    split; discriminate.
Qed.

(** C10: the build skips a cell exactly when its value is [None]; any other
    value that is not a formula, the empty string included, is stored
    as a literal cell under the cell's address, where [evaluate] finds it. *)
Theorem build_model_skips_only_none
    (ft : string -> string -> string -> list string)
    (ef : model -> xlformula -> exn + pyval)
    (wb : workbook) (ws : worksheet) (r c : nat) :
  NoDup (sheetnames wb) -> ws ∈ worksheets wb -> wf_worksheet ws ->
  (cells (build_model_from_workbook ft wb) !! (title ws ++ "!" ++ coordinate r c) = None <->
   value (cell_at ws r c) = PNone) /\
  (value (cell_at ws r c) <> PNone -> is_formula (value (cell_at ws r c)) = false ->
   cells (build_model_from_workbook ft wb) !! (title ws ++ "!" ++ coordinate r c) =
     Some (XLCell (title ws ++ "!" ++ coordinate r c) (value (cell_at ws r c)) None) /\
   evaluate ef (build_model_from_workbook ft wb) (title ws ++ "!" ++ coordinate r c) =
     inr (value (cell_at ws r c))).
Proof.
  intros Hnd Hws Hwf. rewrite (model_cell_lookup ft wb ws r c Hnd Hws Hwf). split.
  - apply build_cell_entry_none.
  - intros Hn Hf. rewrite literal_cell_entry by assumption. split; [reflexivity|].
    unfold evaluate. rewrite (model_cell_lookup ft wb ws r c Hnd Hws Hwf).
    rewrite literal_cell_entry by assumption. reflexivity.
Qed.

Lemma build_model_skips_only_none_witness :
  NoDup (sheetnames demo_wb_blank) /\ demo_ws_blank ∈ worksheets demo_wb_blank /\
  wf_worksheet demo_ws_blank /\
  (cells (build_model_from_workbook demo_terms demo_wb_blank)
     !! (title demo_ws_blank ++ "!" ++ coordinate 1 1) = None <->
   value (cell_at demo_ws_blank 1 1) = PNone) /\
  (value (cell_at demo_ws_blank 1 1) <> PNone ->
   is_formula (value (cell_at demo_ws_blank 1 1)) = false ->
   cells (build_model_from_workbook demo_terms demo_wb_blank)
     !! (title demo_ws_blank ++ "!" ++ coordinate 1 1) =
     Some (XLCell (title demo_ws_blank ++ "!" ++ coordinate 1 1)
             (value (cell_at demo_ws_blank 1 1)) None) /\
   evaluate demo_eval_formula (build_model_from_workbook demo_terms demo_wb_blank)
     (title demo_ws_blank ++ "!" ++ coordinate 1 1) = inr (value (cell_at demo_ws_blank 1 1))).
Proof.
  assert (H1 : NoDup (sheetnames demo_wb_blank)).
  { apply (bool_decide_unpack _). vm_compute. reflexivity. }
  assert (H2 : demo_ws_blank ∈ worksheets demo_wb_blank) by (simpl; left).
  assert (H3 : wf_worksheet demo_ws_blank).
  { unfold wf_worksheet. apply (bool_decide_unpack _). vm_compute. reflexivity. }
  exact (conj H1 (conj H2 (conj H3
    (build_model_skips_only_none demo_terms demo_eval_formula demo_wb_blank demo_ws_blank 1 1
       H1 H2 H3)))).
Defined.

(** C3, round trip: after the build, evaluating a literal cell (a value that
    is neither [None] nor a formula) at its address ["sheet!<col><row>"]
    gives back the stored value, and [safe_eval] returns it unchanged when
    it is a number, a string or a boolean. *)
Theorem build_model_round_trip
    (ft : string -> string -> string -> list string)
    (ef : model -> xlformula -> exn + pyval)
    (wb : workbook) (ws : worksheet) (r c : nat) :
  NoDup (sheetnames wb) -> ws ∈ worksheets wb -> wf_worksheet ws ->
  value (cell_at ws r c) <> PNone -> is_formula (value (cell_at ws r c)) = false ->
  evaluate ef (build_model_from_workbook ft wb) (title ws ++ "!" ++ coordinate r c) =
    inr (value (cell_at ws r c)) /\
  (is_primitive (value (cell_at ws r c)) = true ->
   safe_eval (model_evaluate ef) (build_model_from_workbook ft wb)
     (title ws ++ "!" ++ coordinate r c) =
   (value (cell_at ws r c), build_model_from_workbook ft wb)).
Proof.
  intros Hnd Hws Hwf Hn Hf.
  assert (He : evaluate ef (build_model_from_workbook ft wb) (title ws ++ "!" ++ coordinate r c) =
               inr (value (cell_at ws r c))).
  { unfold evaluate. rewrite (model_cell_lookup ft wb ws r c Hnd Hws Hwf).
    rewrite literal_cell_entry by assumption. reflexivity. }
  split; [exact He|]. intros Hp.
  unfold safe_eval, model_evaluate. rewrite He. rewrite unwrap_primitive by exact Hp.
  reflexivity.
Qed.

Lemma build_model_round_trip_witness :
  NoDup (sheetnames demo_wb) /\ demo_ws ∈ worksheets demo_wb /\ wf_worksheet demo_ws /\
  value (cell_at demo_ws 1 3) = PInt 5 /\
  evaluate demo_eval_formula (build_model_from_workbook demo_terms demo_wb)
    (title demo_ws ++ "!" ++ coordinate 1 3) = inr (PInt 5) /\
  safe_eval (model_evaluate demo_eval_formula) (build_model_from_workbook demo_terms demo_wb)
    (title demo_ws ++ "!" ++ coordinate 1 3) =
  (PInt 5, build_model_from_workbook demo_terms demo_wb).
Proof.
  assert (H1 : NoDup (sheetnames demo_wb)).
  { apply (bool_decide_unpack _). vm_compute. reflexivity. }
  assert (H2 : demo_ws ∈ worksheets demo_wb) by (simpl; left).
  assert (H3 : wf_worksheet demo_ws).
  { unfold wf_worksheet. apply (bool_decide_unpack _). vm_compute. reflexivity. }
  assert (Hv : value (cell_at demo_ws 1 3) = PInt 5) by reflexivity.
  assert (H4 : value (cell_at demo_ws 1 3) <> PNone) by (rewrite Hv; discriminate).
  assert (H5 : is_formula (value (cell_at demo_ws 1 3)) = false) by (rewrite Hv; reflexivity).
  destruct (build_model_round_trip demo_terms demo_eval_formula demo_wb demo_ws 1 3
              H1 H2 H3 H4 H5) as [E1 E2].
  rewrite Hv in E1, E2.
  exact (conj H1 (conj H2 (conj H3 (conj Hv (conj E1 (E2 eq_refl)))))).
Defined.

(* ------------------------------------------------------------------ *)
(** ** The range map built from the formulas *)

Lemma register_ranges_lookup ts rs t :
  is_Some (register_ranges ts rs !! t) <->
  is_Some (rs !! t) \/ (t ∈ ts /\ is_range_term t = true).
Proof.
  revert rs. induction ts as [|u ts IH]; intros rs; simpl.
  { split; [auto|]. intros [H|[H _]]; [exact H|set_solver]. }
  rewrite IH.
  destruct (is_range_term u && bool_decide (rs !! u = None)) eqn:E.
  - apply andb_prop in E as [Eu En]. apply bool_decide_eq_true_1 in En.
    destruct (decide (t = u)) as [->|Hne].
    + rewrite lookup_insert_eq. split; [intros _; right; split; [set_solver|exact Eu]|].
      intros _. left. eauto.
    + rewrite lookup_insert_ne by congruence.
      split; intros [H|[H1 H2]]; auto.
      * right. split; [set_solver|exact H2].
      * apply elem_of_cons in H1 as [->|H1]; [contradiction|]. auto.
  - split; intros [H|[H1 H2]]; auto.
    + right. split; [set_solver|exact H2].
    + apply elem_of_cons in H1 as [->|H1]; [|auto].
      left. destruct (rs !! u) eqn:Et; [eauto|].
      rewrite H2 in E. rewrite bool_decide_eq_true_2 in E by reflexivity.
      discriminate.
Qed.

Lemma register_ranges_value ts rs t x :
  register_ranges ts rs !! t = Some x -> rs !! t = Some x \/ x = XLRange t t.
Proof.
  revert rs. induction ts as [|u ts IH]; intros rs H; simpl in H; [auto|].
  apply IH in H as [H|H]; [|auto].
  destruct (is_range_term u && bool_decide (rs !! u = None)); [|auto].
  destruct (decide (t = u)) as [->|Hne].
  - rewrite lookup_insert_eq in H. injection H as <-. auto.
  - rewrite lookup_insert_ne in H by congruence. auto.
Qed.

Lemma build_cell_ranges ft sheet r c v mdl t :
  is_Some (ranges (build_cell ft sheet r c v mdl) !! t) <->
  is_Some (ranges mdl !! t) \/
  (is_range_term t = true /\
   exists text, v = PStr text /\ is_formula (PStr text) = true /\
                t ∈ ft text sheet (sheet ++ "!" ++ coordinate r c)).
Proof.
  unfold build_cell. destruct v as [| | |s| | | | |];
    try (split; [auto|intros [H|(_ & text & H & _)]; [exact H|discriminate]]).
  destruct (is_formula (PStr s)) eqn:Ef; cbn [ranges terms].
  - rewrite register_ranges_lookup. split.
    + intros [H|[H1 H2]]; [auto|]. right. split; [exact H2|]. eauto.
    + intros [H|[H2 (text & Ht & _ & H1)]]; [auto|]. injection Ht as <-. auto.
  - split; [auto|]. intros [H|(_ & text & Ht & Hf & _)]; [exact H|].
    injection Ht as <-. congruence.
Qed.

Lemma build_cell_range_value ft sheet r c v mdl t x :
  ranges (build_cell ft sheet r c v mdl) !! t = Some x ->
  ranges mdl !! t = Some x \/ x = XLRange t t.
Proof.
  unfold build_cell. destruct v; try auto; destruct (is_formula _); cbn [ranges]; auto.
  apply register_ranges_value.
Qed.

Lemma build_row_ranges ft ws r cs mdl t :
  is_Some (ranges (build_row ft ws r cs mdl) !! t) <->
  is_Some (ranges mdl !! t) \/ exists c, c ∈ cs /\ cell_range_term ft ws r c t.
Proof.
  revert mdl. induction cs as [|c cs IH]; intros mdl; simpl.
  { split; [auto|]. intros [H|(c & Hc & _)]; [exact H|set_solver]. }
  rewrite IH, build_cell_ranges. unfold cell_range_term. split.
  - intros [[H|H]|(c' & Hc' & H)]; [auto| |right; exists c'; split; [set_solver|exact H]].
    right. exists c. split; [set_solver|exact H].
  - intros [H|(c' & Hc' & H)]; [auto|].
    apply elem_of_cons in Hc' as [->|Hc']; [auto|]. right. eauto.
Qed.

Lemma build_rows_ranges ft ws rs mdl t :
  is_Some (ranges (build_rows ft ws rs mdl) !! t) <->
  is_Some (ranges mdl !! t) \/
  exists r c, r ∈ rs /\ c ∈ seq 1 (max_column ws) /\ cell_range_term ft ws r c t.
Proof.
  revert mdl. induction rs as [|r rs IH]; intros mdl; simpl.
  { split; [auto|]. intros [H|(r & c & Hr & _)]; [exact H|set_solver]. }
  rewrite IH, build_row_ranges. split.
  - intros [[H|(c & Hc & H)]|(r' & c' & Hr' & Hc' & H)]; [auto|..].
    + right. exists r, c. split; [set_solver|auto].
    + right. exists r', c'. split; [set_solver|auto].
  - intros [H|(r' & c' & Hr' & Hc' & H)]; [auto|].
    apply elem_of_cons in Hr' as [->|Hr']; [left; right; eauto|]. right. eauto 6.
Qed.

Lemma build_sheets_ranges ft wss mdl t :
  is_Some (ranges (build_sheets ft wss mdl) !! t) <->
  is_Some (ranges mdl !! t) \/
  exists ws r c, ws ∈ wss /\ r ∈ seq 1 (max_row ws) /\ c ∈ seq 1 (max_column ws) /\
                 cell_range_term ft ws r c t.
Proof.
  revert mdl. induction wss as [|w wss IH]; intros mdl; simpl.
  { split; [auto|]. intros [H|(ws & r & c & Hw & _)]; [exact H|set_solver]. }
  rewrite IH, build_rows_ranges. split.
  - intros [[H|(r & c & Hr & Hc & H)]|(ws & r & c & Hw & Hr & Hc & H)]; [auto|..].
    + right. exists w, r, c. split; [set_solver|auto].
    + right. exists ws, r, c. split; [set_solver|auto].
  - intros [H|(ws & r & c & Hw & Hr & Hc & H)]; [auto|].
    apply elem_of_cons in Hw as [->|Hw]; [left; right; eauto|]. right. eauto 8.
Qed.

Lemma build_sheets_range_value ft wss mdl t x :
  (forall y, ranges mdl !! t = Some y -> y = XLRange t t) ->
  ranges (build_sheets ft wss mdl) !! t = Some x -> x = XLRange t t.
Proof.
  assert (Hrow : forall ws r cs m,
            (forall y, ranges m !! t = Some y -> y = XLRange t t) ->
            forall y, ranges (build_row ft ws r cs m) !! t = Some y -> y = XLRange t t).
  { intros ws r cs. induction cs as [|c cs IH]; intros m Hm y; simpl; [apply Hm|].
    apply IH. intros z Hz. apply build_cell_range_value in Hz as [Hz|Hz]; auto. }
  assert (Hrows : forall ws rs m,
            (forall y, ranges m !! t = Some y -> y = XLRange t t) ->
            forall y, ranges (build_rows ft ws rs m) !! t = Some y -> y = XLRange t t).
  { intros ws rs. induction rs as [|r rs IH]; intros m Hm y; simpl; [apply Hm|].
    apply IH. apply Hrow. exact Hm. }
  revert mdl. induction wss as [|w wss IH]; intros mdl Hm; simpl; [apply Hm|].
  apply IH. apply Hrows. exact Hm.
Qed.

(** C8: after the build, the range map has an entry for [t] exactly when
    [t] is a reference term, containing [":"], of the formula of some cell
    the loop visits; the entry is keyed by [t] itself and is
    [XLRange(t, t)], one per term (the map holds one value per key,
    whichever formulas mention it), and a term without [":"] has none. *)
Theorem build_model_ranges
    (ft : string -> string -> string -> list string) (wb : workbook) (t : string) :
  (forall x, ranges (build_model_from_workbook ft wb) !! t = Some x -> x = XLRange t t) /\
  (is_Some (ranges (build_model_from_workbook ft wb) !! t) <->
   exists ws r c, ws ∈ worksheets wb /\ r ∈ seq 1 (max_row ws) /\
                  c ∈ seq 1 (max_column ws) /\ cell_range_term ft ws r c t) /\
  (is_range_term t = false -> ranges (build_model_from_workbook ft wb) !! t = None).
Proof.
  unfold build_model_from_workbook. split; [|split].
  - intros x. apply build_sheets_range_value. cbn [ranges empty_model].
    rewrite lookup_empty. discriminate.
  - rewrite build_sheets_ranges. cbn [ranges empty_model]. rewrite lookup_empty.
    split; [intros [H|H]; [inversion H; discriminate|exact H]|auto].
  - intros Ht. apply eq_None_not_Some. rewrite build_sheets_ranges.
    cbn [ranges empty_model]. rewrite lookup_empty.
    intros [H|(ws & r & c & _ & _ & _ & [Hr _])]; [inversion H; discriminate|congruence].
Qed.

(* ================================================================== *)
(** * Further properties of the code *)

(* ------------------------------------------------------------------ *)
(** ** [coerce_value] *)

Lemma coerce_value_cases isdigit float_of v :
  coerce_value_with isdigit float_of v = v \/
  (exists b, coerce_value_with isdigit float_of v = PBool b) \/
  (exists q, coerce_value_with isdigit float_of v = PFloat q).
Proof.
  destruct v as [| | |s| | | | |]; cbn [coerce_value_with]; auto.
  destruct (String.eqb _ "true" || String.eqb _ "false"); [eauto|].
  destruct (py_any_digit isdigit (coerce_text s)); [|auto].
  destruct (float_of (coerce_text s)); eauto.
Qed.

(** [coerce_value] is idempotent: coercing an already coerced value
    changes nothing, whatever the [isdigit] table and the float parser. *)
Theorem coerce_value_idempotent (isdigit : Z -> bool) (float_of : string -> option float)
    (v : pyval) :
  coerce_value_with isdigit float_of (coerce_value_with isdigit float_of v) =
  coerce_value_with isdigit float_of v.
Proof.
  destruct (coerce_value_cases isdigit float_of v) as [E|[[b E]|[q E]]]; rewrite E;
    [exact E|reflexivity|reflexivity].
Qed.

(** [coerce_value] only ever converts strings: any other value comes back
    as it is, and a string comes back untouched (not even stripped) or
    becomes a boolean or a float. *)
Theorem coerce_value_output_kinds (isdigit : Z -> bool) (float_of : string -> option float)
    (v : pyval) :
  ((forall s, v <> PStr s) -> coerce_value_with isdigit float_of v = v) /\
  (forall s, v = PStr s ->
     coerce_value_with isdigit float_of v = PStr s \/
     (exists b, coerce_value_with isdigit float_of v = PBool b) \/
     (exists q, coerce_value_with isdigit float_of v = PFloat q)).
Proof.
  split.
  - intros Hs. destruct v as [| | |s| | | | |]; try reflexivity. exfalso. exact (Hs s eq_refl).
  - intros s ->. exact (coerce_value_cases isdigit float_of (PStr s)).
Qed.

(* ------------------------------------------------------------------ *)
(** ** [IF_SAFE] on array tests *)

Lemma unwrap_array rows :
  _unwrap_excel_value (PArray rows) =
  match concat rows with [] => inr PNone | x :: _ => _unwrap_excel_value x end.
Proof.
  induction rows as [|[|x row] rows IH]; [reflexivity| |reflexivity].
  exact IH.
Qed.

Lemma IF_SAFE_body_array rows vt vf :
  IF_SAFE_body (PArray rows) vt vf =
    IF_SAFE_body (match concat rows with [] => PNone | x :: _ => x end) vt vf.
Proof.
  unfold IF_SAFE_body at 1. rewrite unwrap_array.
  destruct (concat rows) as [|x l]; reflexivity.
Qed.

(** [IF_SAFE] reads an array test through its first element in row-major
    order (so a 1x1 array acts as its only value, unless that value is an
    [ExcelError], which [validate_args] would have returned as it is), and
    an array without elements counts as [None]: unless a branch is an
    [ExcelError], which is returned, the false branch is taken. *)
Theorem IF_SAFE_array_test (rows : list (list pyval)) (vt vf : pyval) :
  (is_excel_error (match concat rows with [] => PNone | x :: _ => x end) = false ->
   IF_SAFE (PArray rows) vt vf =
     IF_SAFE (match concat rows with [] => PNone | x :: _ => x end) vt vf) /\
  (concat rows = [] ->
   IF_SAFE (PArray rows) vt vf =
     match first_excel_error [vt; vf] with
     | Some err => ([], inr err)
     | None => (if is_callable vf then [FalseBranch] else [], branch_result FalseBranch vf)
     end).
Proof.
  split.
  - intros Hx. unfold IF_SAFE, validate_args, first_excel_error. cbn [List.find].
    rewrite Hx. cbn [is_excel_error].
    destruct (is_excel_error vt); [reflexivity|].
    destruct (is_excel_error vf); [reflexivity|].
    apply IF_SAFE_body_array.
  - intros Hn. unfold IF_SAFE, validate_args, first_excel_error. cbn [List.find is_excel_error].
    destruct (is_excel_error vt); [reflexivity|].
    destruct (is_excel_error vf); [reflexivity|].
    rewrite IF_SAFE_body_array, Hn.
    unfold IF_SAFE_body, branch_result. cbn [_unwrap_excel_value py_bool].
    destruct vf as [| | | | |f| | |]; try reflexivity.
    cbn [invoke_branch is_callable snd]. destruct (f tt); reflexivity.
Qed.

(* ------------------------------------------------------------------ *)
(** ** Column letters and cell addresses *)

Lemma geo26_mono n m : n <= m -> geo26 n <= geo26 m.
Proof. induction 1; [lia|simpl; lia]. Qed.

Lemma col_value_lower s : str_all py_isupper s = true -> geo26 (String.length s) <= col_value s.
Proof.
  induction s as [|ch s IH]; [reflexivity|].
  cbn [str_all]. intros [Hc Hs]%andb_prop. cbn [col_value String.length geo26].
  specialize (IH Hs). unfold py_isupper in Hc. apply andb_prop in Hc as [Hc _].
  apply Nat.leb_le in Hc.
  assert (1 <= nat_of_ascii ch - 64) by lia. nia.
Qed.

(** [get_column_letter] on the valid columns [1..18278]: one to three
    capital letters, from which the column index is read back in
    bijective base 26. *)
Theorem get_column_letter_spec (c : nat) :
  1 <= c <= 18278 ->
  str_all py_isupper (get_column_letter c) = true /\
  col_value (get_column_letter c) = c /\
  1 <= String.length (get_column_letter c) <= 3.
Proof.
  intros Hc. pose proof (get_column_letter_upper c) as U.
  pose proof (get_column_letter_value c) as V.
  split; [exact U|]. split; [exact V|].
  pose proof (col_value_lower _ U) as L. rewrite V in L.
  set (g := get_column_letter c) in *. clearbody g.
  destruct g as [|ch s]; [simpl in V; lia|].
  split; [simpl; lia|].
  destruct (le_lt_dec (String.length (String ch s)) 3) as [|Hl]; [exact l|].
  pose proof (geo26_mono 4 _ Hl) as G.
  assert (E4 : geo26 4 = S 18278) by reflexivity. lia.
Qed.

Lemma get_column_letter_spec_witness :
  1 <= 28 <= 18278 /\
  str_all py_isupper (get_column_letter 28) = true /\
  col_value (get_column_letter 28) = 28 /\
  1 <= String.length (get_column_letter 28) <= 3.
Proof.
  assert (H : 1 <= 28 <= 18278) by (split; apply Nat.leb_le; reflexivity).
  exact (conj H (get_column_letter_spec 28 H)).
Defined.

(** Distinct cells have distinct addresses [f"{sheet}!{col}{row}"]: the
    address gives back the sheet title, the row and the column. *)
Theorem cell_address_injective (t1 t2 : string) (r1 r2 c1 c2 : nat) :
  t1 ++ "!" ++ get_column_letter c1 ++ pretty (N.of_nat r1) =
  t2 ++ "!" ++ get_column_letter c2 ++ pretty (N.of_nat r2) ->
  t1 = t2 /\ r1 = r2 /\ c1 = c2.
Proof. intros E. exact (address_inj t1 t2 r1 r2 c1 c2 E). Qed.

Lemma cell_address_injective_witness :
  "S" ++ "!" ++ get_column_letter 28 ++ pretty (N.of_nat 4) = "S!AB4" /\
  ("S" = "S" /\ 4 = 4 /\ 28 = 28).
Proof.
  assert (H : "S" ++ "!" ++ get_column_letter 28 ++ pretty (N.of_nat 4) = "S!AB4")
    by (vm_compute; reflexivity).
  split; [exact H|].
  exact (cell_address_injective "S" "S" 4 4 28 28 eq_refl).
Defined.

(* ------------------------------------------------------------------ *)
(** ** What [discover_inputs] leaves in the workbook and returns *)

Lemma wb_replace_cons s wb ws' :
  wb_replace (s :: wb) ws' =
  (match s with
   | SheetWorksheet ws => if String.eqb (title ws) (title ws') then SheetWorksheet ws' else s
   | _ => s
   end) :: wb_replace wb ws'.
Proof. reflexivity. Qed.

Lemma chartsheet_titles_cons_ws w wb :
  chartsheet_titles (SheetWorksheet w :: wb) = chartsheet_titles wb.
Proof. reflexivity. Qed.

Lemma chartsheet_titles_cons_cs t wb :
  chartsheet_titles (SheetChartsheet t :: wb) = t :: chartsheet_titles wb.
Proof. reflexivity. Qed.

Lemma chartsheet_titles_replace wb ws' :
  chartsheet_titles (wb_replace wb ws') = chartsheet_titles wb.
Proof.
  induction wb as [|s wb IH]; [reflexivity|]. rewrite wb_replace_cons.
  destruct s as [w|ct]; [destruct (String.eqb (title w) (title ws'))|];
    rewrite ?chartsheet_titles_cons_ws, ?chartsheet_titles_cons_cs, IH; reflexivity.
Qed.

Lemma getitem_replace_other wb ws' t :
  title ws' <> t -> wb_getitem (wb_replace wb ws') t = wb_getitem wb t.
Proof.
  intros Ht.
  assert (Hl : list_find (fun w => title w = t) (worksheets (wb_replace wb ws')) =
               list_find (fun w => title w = t) (worksheets wb)).
  { induction wb as [|s wb IH]; [reflexivity|]. rewrite wb_replace_cons.
    destruct s as [w|ct].
    - destruct (String.eqb (title w) (title ws')) eqn:E.
      + apply String.eqb_eq in E.
        rewrite !worksheets_cons_ws, !list_find_title_cons, IH.
        rewrite !decide_False by congruence. reflexivity.
      + rewrite !worksheets_cons_ws, !list_find_title_cons, IH. reflexivity.
    - rewrite !worksheets_cons_cs. exact IH. }
  unfold wb_getitem. rewrite Hl, chartsheet_titles_replace. reflexivity.
Qed.

(** [discover_inputs] changes no cell value: it keeps the sheet names and
    the sheets' kinds, every worksheet reads the same value and style at
    every position, its [max_row] is unchanged, and [max_column] never
    shrinks (the cells [ws.cell] materialises are empty). *)
Theorem discover_inputs_keeps_cells (py_str : pyval -> string) (py_repr : string -> string)
    (wb : workbook) (sheet_name : string) (ws : worksheet)
    (ds : list descriptor) (wb' : workbook) :
  wf_worksheet ws ->
  wb_getitem wb sheet_name = Some (SheetWorksheet ws) ->
  discover_inputs py_str py_repr wb sheet_name = inr (ds, wb') ->
  sheetnames wb' = sheetnames wb /\
  forall t,
    match wb_getitem wb t, wb_getitem wb' t with
    | Some (SheetWorksheet w), Some (SheetWorksheet w') =>
        (forall r c, cell_at w' r c = cell_at w r c) /\
        max_row w' = max_row w /\ max_column w <= max_column w'
    | Some (SheetChartsheet x), Some (SheetChartsheet y) => x = y
    | None, None => True
    | _, _ => False
    end.
Proof.
  intros Hwf Hget Hd.
  pose proof (discover_inputs_agrees py_str py_repr wb sheet_name ws Hwf Hget) as A.
  rewrite Hd in A.
  destruct (inputs_of_rows py_str sheet_name ws (seq 1 (max_row ws)) (max_column ws));
    [contradiction|].
  destruct A as [_ (ws' & G & Ht & ->)].
  split; [apply sheetnames_replace|]. intros t.
  destruct (decide (t = sheet_name)) as [->|Hne].
  - rewrite Hget, (getitem_replace wb sheet_name ws ws' Ht Hget).
    assert (Hwf' : wf_worksheet ws').
    { apply (wf_grows _ ws ws' Hwf G). intros r Hr. lia. }
    split; [exact (grows_cell_at _ _ _ G)|]. split.
    + apply (grows_max_row _ ws ws' Hwf G). intros r Hr. exact Hr.
    + exact (grows_max_column _ ws ws' Hwf' G).
  - rewrite getitem_replace_other by congruence.
    destruct (wb_getitem wb t) as [[w|x]|]; auto.
Qed.

Lemma discover_inputs_keeps_cells_witness :
  wf_worksheet demo_ws /\
  wb_getitem demo_wb "S" = Some (SheetWorksheet demo_ws) /\
  discover_inputs demo_str demo_repr demo_wb "S" = inr ([demo_descriptor], wb_replace demo_wb demo_ws_after) /\
  sheetnames (wb_replace demo_wb demo_ws_after) = sheetnames demo_wb.
Proof.
  assert (H1 : wf_worksheet demo_ws).
  { unfold wf_worksheet. apply (bool_decide_unpack _). vm_compute. reflexivity. }
  assert (H2 : wb_getitem demo_wb "S" = Some (SheetWorksheet demo_ws)).
  { vm_compute. reflexivity. }
  assert (H3 : discover_inputs demo_str demo_repr demo_wb "S" =
               inr ([demo_descriptor], wb_replace demo_wb demo_ws_after)).
  { vm_compute. reflexivity. }
  exact (conj H1 (conj H2 (conj H3
    (proj1 (discover_inputs_keeps_cells demo_str demo_repr demo_wb "S" demo_ws _ _ H1 H2 H3))))).
Defined.

Lemma inputs_of_cols_elem_at py_str sheet_name ws r cs ds d :
  inputs_of_cols py_str sheet_name ws r cs = inr ds -> d ∈ ds ->
  exists c, c ∈ cs /\ is_probably_input_cell (cell_at ws r c) = inr true /\
            input_descriptor py_str sheet_name ws r c = inr d.
Proof.
  revert ds. induction cs as [|c cs IH]; intros ds H Hd; simpl in H.
  { injection H as <-. set_solver. }
  destruct (is_probably_input_cell (cell_at ws r c)) as [e|[|]] eqn:Ei; [discriminate| |].
  2:{ destruct (IH ds H Hd) as (c' & Hc' & R). exists c'. split; [set_solver|exact R]. }
  destruct (input_descriptor py_str sheet_name ws r c) as [e|d0] eqn:Ed; [discriminate|].
  destruct (inputs_of_cols py_str sheet_name ws r cs) as [e|ds'] eqn:Er; [discriminate|].
  injection H as <-. apply elem_of_cons in Hd as [->|Hd].
  - exists c. split; [set_solver|auto].
  - destruct (IH ds' eq_refl Hd) as (c' & Hc' & R). exists c'. split; [set_solver|exact R].
Qed.

Lemma inputs_of_rows_elem_at py_str sheet_name ws rs m ds d :
  inputs_of_rows py_str sheet_name ws rs m = inr ds -> d ∈ ds ->
  exists r c, r ∈ rs /\ c ∈ seq 1 m /\ is_probably_input_cell (cell_at ws r c) = inr true /\
              input_descriptor py_str sheet_name ws r c = inr d.
Proof.
  revert ds. induction rs as [|r rs IH]; intros ds H Hd; simpl in H.
  { injection H as <-. set_solver. }
  destruct (inputs_of_cols py_str sheet_name ws r (seq 1 m)) as [e|ds1] eqn:E1; [discriminate|].
  destruct (inputs_of_rows py_str sheet_name ws rs m) as [e|ds2] eqn:E2; [discriminate|].
  injection H as <-. apply elem_of_app in Hd as [Hd|Hd].
  - destruct (inputs_of_cols_elem_at _ _ _ _ _ _ _ E1 Hd) as (c & Hc & R).
    exists r, c. split; [set_solver|auto].
  - destruct (IH ds2 eq_refl Hd) as (r' & c & Hr & R). exists r', c. split; [set_solver|exact R].
Qed.

(** Each descriptor [discover_inputs] returns sits inside the sheet's used
    area, names an input cell, and carries that cell's value as its
    default. *)
Theorem discover_inputs_descriptor_cells (py_str : pyval -> string) (py_repr : string -> string)
    (wb : workbook) (sheet_name : string) (ws : worksheet)
    (ds : list descriptor) (wb' : workbook) :
  wf_worksheet ws ->
  wb_getitem wb sheet_name = Some (SheetWorksheet ws) ->
  discover_inputs py_str py_repr wb sheet_name = inr (ds, wb') ->
  forall d, d ∈ ds ->
    1 <= row d <= max_row ws /\ 1 <= col d <= max_column ws /\
    is_probably_input_cell (cell_at ws (row d) (col d)) = inr true /\
    default_value d = value (cell_at ws (row d) (col d)).
Proof.
  intros Hwf Hget Hd d Hin.
  pose proof (discover_inputs_agrees py_str py_repr wb sheet_name ws Hwf Hget) as A.
  rewrite Hd in A.
  destruct (inputs_of_rows py_str sheet_name ws (seq 1 (max_row ws)) (max_column ws))
    as [e|ds0] eqn:E0; [contradiction|].
  destruct A as [-> _].
  assert (Hin0 : d ∈ ds0).
  { rewrite <- (merge_sort_Permutation key_le ds0). exact Hin. }
  destruct (inputs_of_rows_elem_at _ _ _ _ _ _ _ E0 Hin0) as (r & c & Hr & Hc & Hi & Hrc).
  unfold input_descriptor in Hrc.
  destruct (py_get_column_letter c) as [e|letter]; [discriminate|].
  destruct (py_bool (value (cell_at ws r 2))) as [e|b]; [discriminate|].
  injection Hrc as <-. cbn [row col default_value].
  rewrite in_seq_1 in Hr, Hc. auto.
Qed.

Lemma discover_inputs_descriptor_cells_witness :
  wf_worksheet demo_ws /\
  wb_getitem demo_wb "S" = Some (SheetWorksheet demo_ws) /\
  discover_inputs demo_str demo_repr demo_wb "S" = inr ([demo_descriptor], wb_replace demo_wb demo_ws_after) /\
  default_value demo_descriptor = value (cell_at demo_ws (row demo_descriptor) (col demo_descriptor)).
Proof.
  assert (H1 : wf_worksheet demo_ws).
  { unfold wf_worksheet. apply (bool_decide_unpack _). vm_compute. reflexivity. }
  assert (H2 : wb_getitem demo_wb "S" = Some (SheetWorksheet demo_ws)).
  { vm_compute. reflexivity. }
  assert (H3 : discover_inputs demo_str demo_repr demo_wb "S" =
               inr ([demo_descriptor], wb_replace demo_wb demo_ws_after)).
  { vm_compute. reflexivity. }
  assert (H4 : demo_descriptor ∈ [demo_descriptor]) by set_solver.
  destruct (discover_inputs_descriptor_cells demo_str demo_repr demo_wb "S" demo_ws _ _ H1 H2 H3 _ H4)
    as (_ & _ & _ & E).
  exact (conj H1 (conj H2 (conj H3 E))).
Defined.

(* ------------------------------------------------------------------ *)
(** ** Formula cells in the built model *)

(** The lookup argument of [model_cell_lookup], for any of the model's
    maps whose entries [build_cell] writes only at the cell's address. *)
Section MapFrame.
Variable X : Type.
Variable proj : model -> gmap string X.
Hypothesis proj_other : forall ft sheet r c v mdl a,
  a <> sheet ++ "!" ++ coordinate r c ->
  proj (build_cell ft sheet r c v mdl) !! a = proj mdl !! a.
Hypothesis proj_hit : forall ft sheet r c v mdl,
  proj mdl !! (sheet ++ "!" ++ coordinate r c) = None ->
  proj (build_cell ft sheet r c v mdl) !! (sheet ++ "!" ++ coordinate r c) =
  proj (build_cell ft sheet r c v empty_model) !! (sheet ++ "!" ++ coordinate r c).
Hypothesis proj_empty : forall a, proj empty_model !! a = None.

Lemma map_row_other ft ws r cs mdl a :
  (forall c, c ∈ cs -> a <> title ws ++ "!" ++ coordinate r c) ->
  proj (build_row ft ws r cs mdl) !! a = proj mdl !! a.
Proof.
  revert mdl. induction cs as [|c cs IH]; intros mdl Ha; simpl; [reflexivity|].
  rewrite IH by (intros c' Hc'; apply Ha; set_solver).
  apply proj_other. apply Ha. set_solver.
Qed.

Lemma map_rows_other ft ws rs mdl a :
  (forall r c, r ∈ rs -> c ∈ seq 1 (max_column ws) -> a <> title ws ++ "!" ++ coordinate r c) ->
  proj (build_rows ft ws rs mdl) !! a = proj mdl !! a.
Proof.
  revert mdl. induction rs as [|r rs IH]; intros mdl Ha; simpl; [reflexivity|].
  rewrite IH by (intros r' c' Hr' Hc'; apply Ha; [set_solver|exact Hc']).
  apply map_row_other. intros c Hc. apply Ha; [set_solver|exact Hc].
Qed.

Lemma map_sheets_other ft wss mdl a :
  (forall ws r c, ws ∈ wss -> r ∈ seq 1 (max_row ws) -> c ∈ seq 1 (max_column ws) ->
     a <> title ws ++ "!" ++ coordinate r c) ->
  proj (build_sheets ft wss mdl) !! a = proj mdl !! a.
Proof.
  revert mdl. induction wss as [|w wss IH]; intros mdl Ha; simpl; [reflexivity|].
  rewrite IH by (intros ws' r' c' Hw; apply Ha; set_solver).
  apply map_rows_other. intros r c Hr Hc. apply Ha; [set_solver|exact Hr|exact Hc].
Qed.

Lemma map_row_hit ft ws r c cs mdl :
  NoDup cs -> c ∈ cs ->
  proj mdl !! (title ws ++ "!" ++ coordinate r c) = None ->
  proj (build_row ft ws r cs mdl) !! (title ws ++ "!" ++ coordinate r c) =
  proj (build_cell ft (title ws) r c (value (cell_at ws r c)) empty_model)
    !! (title ws ++ "!" ++ coordinate r c).
Proof.
  intros Hnd Hc Hn. apply list_elem_of_split in Hc as (l1 & l2 & ->).
  apply NoDup_app in Hnd as (_ & Hdis & Hnd2). apply NoDup_cons in Hnd2 as [Hc2 _].
  rewrite build_row_app. simpl.
  rewrite map_row_other.
  2:{ intros c' Hc' E. apply address_inj in E as (_ & _ & ->). contradiction. }
  apply proj_hit. rewrite map_row_other; [exact Hn|].
  intros c' Hc' E. apply address_inj in E as (_ & _ & ->).
  apply (Hdis c'); [exact Hc'|set_solver].
Qed.

Lemma map_rows_hit ft ws r c rs mdl :
  NoDup rs -> r ∈ rs -> c ∈ seq 1 (max_column ws) ->
  proj mdl !! (title ws ++ "!" ++ coordinate r c) = None ->
  proj (build_rows ft ws rs mdl) !! (title ws ++ "!" ++ coordinate r c) =
  proj (build_cell ft (title ws) r c (value (cell_at ws r c)) empty_model)
    !! (title ws ++ "!" ++ coordinate r c).
Proof.
  intros Hnd Hr Hc Hn. apply list_elem_of_split in Hr as (l1 & l2 & ->).
  apply NoDup_app in Hnd as (_ & Hdis & Hnd2). apply NoDup_cons in Hnd2 as [Hr2 _].
  rewrite build_rows_app. simpl.
  rewrite map_rows_other.
  2:{ intros r' c' Hr' _ E. apply address_inj in E as (_ & -> & _). contradiction. }
  apply map_row_hit; [apply NoDup_seq|exact Hc|].
  rewrite map_rows_other; [exact Hn|].
  intros r' c' Hr' _ E. apply address_inj in E as (_ & -> & _).
  apply (Hdis r'); [exact Hr'|set_solver].
Qed.

Lemma map_model_lookup ft wb ws r c :
  NoDup (sheetnames wb) -> ws ∈ worksheets wb -> wf_worksheet ws ->
  proj (build_model_from_workbook ft wb) !! (title ws ++ "!" ++ coordinate r c) =
  proj (build_cell ft (title ws) r c (value (cell_at ws r c)) empty_model)
    !! (title ws ++ "!" ++ coordinate r c).
Proof.
  intros Hnd Hws Hwf. pose proof (NoDup_worksheet_titles wb Hnd) as Ht.
  unfold build_model_from_workbook.
  destruct (decide (r ∈ seq 1 (max_row ws) /\ c ∈ seq 1 (max_column ws))) as [[Hr Hc]|Hout].
  - apply list_elem_of_split in Hws as (w1 & w2 & Hsplit). rewrite Hsplit in Ht |- *.
    rewrite map_app, map_cons in Ht. apply NoDup_app in Ht as (_ & Hdis & Ht2).
    apply NoDup_cons in Ht2 as [Hw2 _].
    rewrite build_sheets_app, build_sheets_cons, map_sheets_other.
    2:{ intros w' r' c' Hw' _ _ E. apply address_inj in E as (E & _ & _).
        apply Hw2. rewrite E. apply list_elem_of_fmap. eauto. }
    apply map_rows_hit; [apply NoDup_seq|exact Hr|exact Hc|].
    rewrite map_sheets_other; [apply proj_empty|].
    intros w' r' c' Hw' _ _ E. apply address_inj in E as (E & _ & _).
    apply (Hdis (title w')); [apply list_elem_of_fmap; eauto|]. rewrite <- E. set_solver.
  - assert (He : cell_at ws r c = empty_cell).
    { unfold cell_at. destruct (_cells ws !! (r, c)) as [x|] eqn:E; [|reflexivity].
      exfalso. apply Hout. destruct (key_bounds ws (r, c) x Hwf E) as [B1 B2].
      rewrite !in_seq_1. simpl in B1, B2. lia. }
    rewrite He. cbn [value empty_cell build_cell]. rewrite proj_empty.
    rewrite map_sheets_other; [apply proj_empty|].
    intros w' r' c' Hw' Hr' Hc' E. apply address_inj in E as (E & <- & <-).
    assert (w' = ws) as ->.
    { apply (NoDup_map_eq title (worksheets wb)); auto. }
    apply Hout. split; assumption.
Qed.
End MapFrame.

Lemma formulae_other ft sheet r c v mdl a :
  a <> sheet ++ "!" ++ coordinate r c ->
  formulae (build_cell ft sheet r c v mdl) !! a = formulae mdl !! a.
Proof.
  intros Ha. unfold build_cell.
  destruct v; try reflexivity; try destruct (is_formula _); cbn [formulae];
    try reflexivity; apply lookup_insert_ne; congruence.
Qed.

Lemma formulae_hit ft sheet r c v mdl :
  formulae mdl !! (sheet ++ "!" ++ coordinate r c) = None ->
  formulae (build_cell ft sheet r c v mdl) !! (sheet ++ "!" ++ coordinate r c) =
  formulae (build_cell ft sheet r c v empty_model) !! (sheet ++ "!" ++ coordinate r c).
Proof.
  intros Hn. unfold build_cell.
  destruct v; try exact Hn; try destruct (is_formula _); cbn [formulae empty_model];
    rewrite ?lookup_insert_eq; try reflexivity; rewrite Hn, lookup_empty; reflexivity.
Qed.

(** A formula cell is stored with value [None] and its [XLFormula] (the
    formula text, the sheet title as [sheet_name] and the cell's address as
    [reference]), is registered under its address in the formula map, and
    evaluating that address runs the engine on that formula; a cell that
    is not a formula has no entry in the formula map. *)
Theorem build_model_formula_cells
    (ft : string -> string -> string -> list string)
    (ef : model -> xlformula -> exn + pyval)
    (wb : workbook) (ws : worksheet) (r c : nat) :
  NoDup (sheetnames wb) -> ws ∈ worksheets wb -> wf_worksheet ws ->
  (forall text,
     value (cell_at ws r c) = PStr text -> is_formula (PStr text) = true ->
     let a := title ws ++ "!" ++ coordinate r c in
     let f := XLFormula text (title ws) a (ft text (title ws) a) in
     cells (build_model_from_workbook ft wb) !! a = Some (XLCell a PNone (Some f)) /\
     formulae (build_model_from_workbook ft wb) !! a = Some f /\
     evaluate ef (build_model_from_workbook ft wb) a = ef (build_model_from_workbook ft wb) f) /\
  (is_formula (value (cell_at ws r c)) = false ->
   formulae (build_model_from_workbook ft wb) !! (title ws ++ "!" ++ coordinate r c) = None).
Proof.
  intros Hnd Hws Hwf.
  pose proof (model_cell_lookup ft wb ws r c Hnd Hws Hwf) as Hc.
  pose proof (map_model_lookup _ formulae formulae_other formulae_hit
                (fun a => lookup_empty a) ft wb ws r c Hnd Hws Hwf) as Hf.
  split.
  - intros text Hv Ht a f.
    assert (Ec : cells (build_model_from_workbook ft wb) !! a = Some (XLCell a PNone (Some f))).
    { unfold a. rewrite Hc, Hv. unfold build_cell. rewrite Ht. cbn [cells].
      apply lookup_insert_eq. }
    split; [exact Ec|]. split.
    + unfold a. rewrite Hf, Hv. unfold build_cell. rewrite Ht. cbn [formulae].
      apply lookup_insert_eq.
    + unfold evaluate. rewrite Ec. reflexivity.
  - intros Hn. rewrite Hf. unfold build_cell.
    destruct (value (cell_at ws r c)); try reflexivity; rewrite Hn; reflexivity.
Qed.

Lemma build_model_formula_cells_witness :
  NoDup (sheetnames demo_wb_formula) /\ demo_ws_formula ∈ worksheets demo_wb_formula /\
  wf_worksheet demo_ws_formula /\
  value (cell_at demo_ws_formula 1 2) = PStr "=A1*2" /\
  formulae (build_model_from_workbook demo_terms demo_wb_formula)
    !! (title demo_ws_formula ++ "!" ++ coordinate 1 2) =
  Some (XLFormula "=A1*2" (title demo_ws_formula) (title demo_ws_formula ++ "!" ++ coordinate 1 2)
          (demo_terms "=A1*2" (title demo_ws_formula)
             (title demo_ws_formula ++ "!" ++ coordinate 1 2))).
Proof.
  assert (H1 : NoDup (sheetnames demo_wb_formula)).
  { apply (bool_decide_unpack _). vm_compute. reflexivity. }
  assert (H2 : demo_ws_formula ∈ worksheets demo_wb_formula) by (simpl; left).
  assert (H3 : wf_worksheet demo_ws_formula).
  { unfold wf_worksheet. apply (bool_decide_unpack _). vm_compute. reflexivity. }
  assert (Hv : value (cell_at demo_ws_formula 1 2) = PStr "=A1*2") by reflexivity.
  destruct (build_model_formula_cells demo_terms demo_eval_formula demo_wb_formula
              demo_ws_formula 1 2 H1 H2 H3) as [F _].
  destruct (F "=A1*2" Hv eq_refl) as (_ & E & _).
  exact (conj H1 (conj H2 (conj H3 (conj Hv E)))).
Defined.

(* ------------------------------------------------------------------ *)
(** ** Locating and choosing the workbook *)

Lemma find_None_intro {A} (f : A -> bool) (l : list A) :
  (forall x, In x l -> f x = false) -> find f l = None.
Proof.
  induction l as [|x l IH]; intros H; simpl; [reflexivity|].
  rewrite (H x (or_introl eq_refl)). apply IH. intros y Hy. apply H. right. exact Hy.
Qed.

Lemma path_is_file_entry cwd name :
  path_is_file cwd name = true ->
  exists e, In e cwd /\ entry_name e = name /\ entry_is_file e = true.
Proof.
  unfold path_is_file. destruct (path_entry cwd name) as [e|] eqn:E; [|discriminate].
  intros Hf. apply find_some in E as [Hin Hn]. apply String.eqb_eq in Hn. eauto.
Qed.

Lemma path_is_file_exists cwd name :
  path_is_file cwd name = true -> path_exists cwd name = true.
Proof. unfold path_is_file, path_exists. destruct (path_entry cwd name); congruence. Qed.

Lemma preferred_files_names name :
  In name PREFERRED_FILES ->
  py_endswith name ".xlsx" = true /\ py_startswith name "~$" = false.
Proof. intros [<-|[<-|[]]]; split; reflexivity. Qed.

Lemma find_workbook_some cwd name :
  find_workbook_in_cwd cwd = Some name ->
  exists e, In e cwd /\ entry_name e = name /\ entry_is_file e = true /\
    py_endswith name ".xlsx" = true /\ py_startswith name "~$" = false.
Proof.
  unfold find_workbook_in_cwd.
  destruct (find _ PREFERRED_FILES) as [n|] eqn:Ep.
  - intros [= <-]. apply find_some in Ep as [Hin Hf].
    apply andb_prop in Hf as [Hf Hs]. apply andb_prop in Hf as [_ Hf].
    destruct (path_is_file_entry _ _ Hf) as (e & He & Hn & Hfe).
    destruct (preferred_files_names n Hin) as [Hx Ht]. exists e. auto.
  - destruct (find _ (glob_xlsx cwd)) as [p|] eqn:Eg; [|discriminate].
    intros [= <-]. apply find_some in Eg as [Hin Hf].
    apply filter_In in Hin as [Hin Hx]. apply andb_prop in Hf as [Hf Hs].
    apply negb_true_iff in Hs. exists p. auto.
Qed.

(** A workbook found in the working directory is an entry of the directory
    that is a file, whose name ends in [".xlsx"] and does not start with
    ["~$"] (an Excel lock file). *)
Theorem find_workbook_in_cwd_valid (cwd : list dir_entry) (name : string) :
  find_workbook_in_cwd cwd = Some name ->
  exists e, In e cwd /\ entry_name e = name /\ entry_is_file e = true /\
    py_endswith name ".xlsx" = true /\ py_startswith name "~$" = false.
Proof. apply find_workbook_some. Qed.

Lemma find_workbook_in_cwd_valid_witness :
  find_workbook_in_cwd demo_cwd = Some "simulador.xlsx" /\
  exists e, In e demo_cwd /\ entry_name e = "simulador.xlsx" /\ entry_is_file e = true /\
    py_endswith "simulador.xlsx" ".xlsx" = true /\ py_startswith "simulador.xlsx" "~$" = false.
Proof.
  assert (H : find_workbook_in_cwd demo_cwd = Some "simulador.xlsx") by reflexivity.
  exact (conj H (find_workbook_in_cwd_valid demo_cwd "simulador.xlsx" H)).
Defined.

(** No workbook is found exactly when every file of the working directory
    whose name ends in [".xlsx"] is an Excel lock file (its name starts with
    ["~$"]): directories, other extensions and lock files are all passed
    over, and any other [.xlsx] file is found. *)
Theorem find_workbook_in_cwd_none (cwd : list dir_entry) :
  find_workbook_in_cwd cwd = None <->
  (forall e, In e cwd -> entry_is_file e = true -> py_endswith (entry_name e) ".xlsx" = true ->
     py_startswith (entry_name e) "~$" = true).
Proof.
  split.
  - intros H e He Hf Hx. unfold find_workbook_in_cwd in H.
    destruct (find _ PREFERRED_FILES); [discriminate|].
    destruct (find _ (glob_xlsx cwd)) eqn:Eg; [discriminate|].
    assert (Hg : In e (glob_xlsx cwd)) by (apply filter_In; auto).
    pose proof (find_none _ _ Eg e Hg) as Hn. cbn beta in Hn. rewrite Hf in Hn.
    apply negb_false_iff in Hn. exact Hn.
  - intros H. unfold find_workbook_in_cwd.
    rewrite find_None_intro.
    2:{ intros n Hn. destruct (path_is_file cwd n) eqn:Ef.
        - destruct (path_is_file_entry _ _ Ef) as (e & He & <- & Hfe).
          destruct (preferred_files_names _ Hn) as [Hx Hs].
          rewrite (H e He Hfe Hx) in Hs. discriminate.
        - rewrite andb_false_r. reflexivity. }
    rewrite find_None_intro; [reflexivity|].
    intros p Hp. apply filter_In in Hp as [Hp Hx].
    destruct (entry_is_file p) eqn:Ef; [|reflexivity].
    rewrite (H p Hp Ef Hx). reflexivity.
Qed.

(** The known names come first, whatever the order of the directory
    listing: when ["simulador.xlsx"] is a file it is chosen, and otherwise
    the second preferred name is chosen when it is a file. *)
Theorem find_workbook_in_cwd_preferred (cwd : list dir_entry) :
  (path_is_file cwd "simulador.xlsx" = true ->
   find_workbook_in_cwd cwd = Some "simulador.xlsx") /\
  (path_is_file cwd "simulador.xlsx" = false ->
   path_is_file cwd (nth 1 PREFERRED_FILES EmptyString) = true ->
   find_workbook_in_cwd cwd = Some (nth 1 PREFERRED_FILES EmptyString)).
Proof.
  split.
  - intros H. unfold find_workbook_in_cwd, PREFERRED_FILES. cbn [find].
    rewrite (path_is_file_exists _ _ H), H. reflexivity.
  - intros H1 H2. unfold find_workbook_in_cwd, PREFERRED_FILES. cbn [find].
    rewrite H1, andb_false_r. cbn [nth PREFERRED_FILES] in H2.
    rewrite (path_is_file_exists _ _ H2), H2. reflexivity.
Qed.

(** Without an upload the page never reports a temporary Excel file: it
    goes on with the workbook found in the working directory and the bytes
    read from it, ends with the exception reading it raised, or stops
    because none was found.  Whatever the source, the page never goes on
    with a name that starts with ["~$"]. *)
Theorem select_workbook_outcomes (uploaded : option (string * list Byte.byte))
    (cwd : list dir_entry) (read_bytes : string -> exn + list Byte.byte) :
  select_workbook None cwd read_bytes =
    match find_workbook_in_cwd cwd with
    | Some n =>
        match read_bytes n with
        | inl e => SelectCrash e
        | inr b => SelectProceed n b
        end
    | None => SelectStop NoWorkbook
    end /\
  (forall n b, select_workbook uploaded cwd read_bytes = SelectProceed n b ->
     py_startswith n "~$" = false).
Proof.
  split.
  - unfold select_workbook. destruct (find_workbook_in_cwd cwd) as [n|] eqn:E; [|reflexivity].
    destruct (read_bytes n) as [e|b]; [reflexivity|].
    destruct (find_workbook_some _ _ E) as (_ & _ & _ & _ & _ & Hs). rewrite Hs. reflexivity.
  - intros n b. unfold select_workbook.
    destruct (match uploaded with Some (n0, b0) => _ | None => _ end) as [e|[[b'|] [n'|]]];
      try discriminate.
    destruct (py_startswith n' "~$") eqn:Hs; [discriminate|]. intros [= <- _]. exact Hs.
Qed.

(* ------------------------------------------------------------------ *)
(** ** The page's inputs and the engine *)

Lemma input_cell_literal x :
  is_probably_input_cell x = inr true -> value x <> PNone /\ is_formula (value x) = false.
Proof.
  unfold is_probably_input_cell.
  destruct (is_empty_value (value x)) eqn:Ee; [discriminate|].
  destruct (is_formula (value x)) eqn:Ef; [discriminate|].
  intros _. split; [|reflexivity]. intros Hn. rewrite Hn in Ee. discriminate.
Qed.

Lemma getitem_in_worksheets wb t ws :
  wb_getitem wb t = Some (SheetWorksheet ws) -> ws ∈ worksheets wb.
Proof.
  intros H. destruct (getitem_worksheet wb t ws H) as ([i Hf] & _ & _).
  apply list_find_Some in Hf as (Hi & _ & _). apply list_elem_of_lookup_2 in Hi. exact Hi.
Qed.

(** The page loads the engine ([build_model_from_workbook]) and the inputs
    ([discover_inputs]) from the same workbook; every input it offers for
    editing names a cell the engine holds as a literal, whose value is the
    input's default. *)
Theorem discover_inputs_cells_in_model (py_str : pyval -> string) (py_repr : string -> string)
    (ft : string -> string -> string -> list string)
    (wb : workbook) (sheet_name : string) (ws : worksheet)
    (ds : list descriptor) (wb' : workbook) :
  NoDup (sheetnames wb) -> wf_worksheet ws ->
  wb_getitem wb sheet_name = Some (SheetWorksheet ws) ->
  discover_inputs py_str py_repr wb sheet_name = inr (ds, wb') ->
  forall d, d ∈ ds ->
    cells (build_model_from_workbook ft wb) !! address d =
    Some (XLCell (address d) (default_value d) None).
Proof.
  intros Hnd Hwf Hget Hd d Hin.
  pose proof (discover_inputs_agrees py_str py_repr wb sheet_name ws Hwf Hget) as A.
  rewrite Hd in A.
  destruct (inputs_of_rows py_str sheet_name ws (seq 1 (max_row ws)) (max_column ws))
    as [e|ds0] eqn:E0; [contradiction|].
  destruct A as [-> _].
  assert (Hin0 : d ∈ ds0).
  { rewrite <- (merge_sort_Permutation key_le ds0). exact Hin. }
  destruct (inputs_of_rows_elem_at _ _ _ _ _ _ _ E0 Hin0) as (r & c & _ & _ & Hi & Hrc).
  destruct (input_descriptor_label _ _ _ _ _ _ Hrc) as (_ & _ & Ha & _).
  unfold input_descriptor in Hrc.
  destruct (py_get_column_letter c) as [e|letter] eqn:El; [discriminate|].
  destruct (py_get_column_letter_inr _ _ El) as [-> _].
  destruct (py_bool (value (cell_at ws r 2))) as [e|b]; [discriminate|].
  injection Hrc as Hrc. rewrite <- Hrc in Ha |- *. cbn [default_value] in *.
  destruct (getitem_worksheet wb sheet_name ws Hget) as (_ & Ht & _).
  rewrite Ha, <- Ht.
  change (get_column_letter c ++ pretty (N.of_nat r)) with (coordinate r c).
  destruct (input_cell_literal _ Hi) as [Hn Hf].
  rewrite (model_cell_lookup ft wb ws r c Hnd (getitem_in_worksheets _ _ _ Hget) Hwf).
  apply literal_cell_entry; assumption.
Qed.

Lemma discover_inputs_cells_in_model_witness :
  NoDup (sheetnames demo_wb) /\ wf_worksheet demo_ws /\
  wb_getitem demo_wb "S" = Some (SheetWorksheet demo_ws) /\
  discover_inputs demo_str demo_repr demo_wb "S" = inr ([demo_descriptor], wb_replace demo_wb demo_ws_after) /\
  cells (build_model_from_workbook demo_terms demo_wb) !! address demo_descriptor =
  Some (XLCell (address demo_descriptor) (default_value demo_descriptor) None).
Proof.
  assert (H0 : NoDup (sheetnames demo_wb)).
  { apply (bool_decide_unpack _). vm_compute. reflexivity. }
  assert (H1 : wf_worksheet demo_ws).
  { unfold wf_worksheet. apply (bool_decide_unpack _). vm_compute. reflexivity. }
  assert (H2 : wb_getitem demo_wb "S" = Some (SheetWorksheet demo_ws)).
  { vm_compute. reflexivity. }
  assert (H3 : discover_inputs demo_str demo_repr demo_wb "S" =
               inr ([demo_descriptor], wb_replace demo_wb demo_ws_after)).
  { vm_compute. reflexivity. }
  assert (H4 : demo_descriptor ∈ [demo_descriptor]) by set_solver.
  pose proof (discover_inputs_cells_in_model demo_str demo_repr demo_terms demo_wb "S" demo_ws _ _
                H0 H1 H2 H3 _ H4) as E.
  exact (conj H0 (conj H1 (conj H2 (conj H3 E)))).
Defined.
